(** * peerjs-go: the signaling socket and its wire messages

    A shallow embedding of [socket.go] (the [Socket] type with [NewSocket],
    [buildBaseURL], [Start], [Close], [Send] and the receive loop that
    [Start] spawns) and of [message.go] (the [Message] and [Payload]
    records with their JSON struct tags).

    Go strings and byte slices are [string]s (sequences of bytes), Go's
    [int] is [Z], a pointer that may be nil is an [option], and the [error]
    interface is the inductive type [error] below, [None] standing for the
    nil error. *)

From Stdlib Require Import String Ascii List ZArith NArith Bool Lia DecimalString.
Import ListNotations.
Local Open Scope string_scope.
Set Warnings "-register-all".

(** ** Errors *)

(** The dynamic types of the errors the code meets.  The receive loop tells
    [*websocket.CloseError] from every other error by a type assertion. *)
Inductive error : Type :=
| CloseError (Code : Z) (Text : string)
| NetError (msg : string)
| SyntaxError (msg : string)
| UnmarshalTypeError (Value : string) (GoType : string)
| UnmarshalerError (msg : string).

(** ** Constants of gorilla/websocket *)

Definition TextMessage : Z := 1.
Definition BinaryMessage : Z := 2.
Definition CloseMessage : Z := 8.
Definition PingMessage : Z := 9.
Definition PongMessage : Z := 10.

Definition CloseNormalClosure : Z := 1000.
Definition CloseGoingAway : Z := 1001.
Definition CloseNoStatusReceived : Z := 1005.

Definition byte_of_Z (z : Z) : ascii := ascii_of_N (Z.to_N (z mod 256)).

(** [websocket.FormatCloseMessage]: the close code in two big-endian bytes,
    then the text; the empty payload for the no-status code. *)
Definition FormatCloseMessage (closeCode : Z) (text : string) : string :=
  if (closeCode =? CloseNoStatusReceived)%Z then ""
  else String (byte_of_Z (Z.shiftr closeCode 8)) (String (byte_of_Z closeCode) text).

(** ** JSON values *)

(** The tree that [encoding/json] reads and writes.  A number is kept as
    its literal. *)
Inductive json : Type :=
| JNull
| JBool (b : bool)
| JNumber (lit : string)
| JString (s : string)
| JArray (items : list json)
| JObject (members : list (string * json)).

(** What [UnmarshalTypeError.Value] calls the JSON value. *)
Definition jsonKind (v : json) : string :=
  match v with
  | JNull => "null"
  | JBool _ => "bool"
  | JNumber _ => "number"
  | JString _ => "string"
  | JArray _ => "array"
  | JObject _ => "object"
  end.

(** *** Strings on the wire *)

Definition byteIn (lo hi : N) (b : ascii) : bool :=
  ((lo <=? N_of_ascii b) && (N_of_ascii b <=? hi))%N.

Definition contByte : ascii -> bool := byteIn 128 191.

(** The length in bytes of the UTF-8 sequence that starts [s], [None] where
    [utf8.DecodeRuneInString] answers [(RuneError, 1)]. *)
Definition runeLen (s : string) : option nat :=
  match s with
  | EmptyString => None
  | String b0 r =>
    let n0 := N_of_ascii b0 in
    if (n0 <? 128)%N then Some 1
    else if (n0 <? 194)%N then None
    else if (n0 <? 224)%N then
      match r with
      | String b1 _ => if contByte b1 then Some 2 else None
      | _ => None
      end
    else if (n0 <? 240)%N then
      match r with
      | String b1 (String b2 _) =>
        let first :=
          if (n0 =? 224)%N then byteIn 160 191 b1
          else if (n0 =? 237)%N then byteIn 128 159 b1
          else contByte b1 in
        if first && contByte b2 then Some 3 else None
      | _ => None
      end
    else if (n0 <? 245)%N then
      match r with
      | String b1 (String b2 (String b3 _)) =>
        let first :=
          if (n0 =? 240)%N then byteIn 144 191 b1
          else if (n0 =? 244)%N then byteIn 128 143 b1
          else contByte b1 in
        if first && contByte b2 && contByte b3 then Some 4 else None
      | _ => None
      end
    else None
  end.

(** U+FFFD in UTF-8. *)
Definition replacementRune : string :=
  String (ascii_of_N 239) (String (ascii_of_N 191) (String (ascii_of_N 189) "")).

(** [json.Marshal] coerces a Go string to valid UTF-8: every byte that does
    not start a well-formed sequence becomes U+FFFD.  [pending] counts the
    bytes still to copy of a sequence already checked. *)
Fixpoint coerceUTF8 (pending : nat) (s : string) : string :=
  match s with
  | EmptyString => EmptyString
  | String b r =>
    match pending with
    | S k => String b (coerceUTF8 k r)
    | O =>
      match runeLen s with
      | Some n => String b (coerceUTF8 (Nat.pred n) r)
      | None => replacementRune ++ coerceUTF8 0 r
      end
    end
  end.

Definition toValidUTF8 (s : string) : string := coerceUTF8 0 s.


(** *** Field names *)

(** [foldName] of [encoding/json], as far as it can meet an ASCII name:
    ASCII letters go to upper case, and the two runes outside ASCII that
    fold onto an ASCII letter, U+017F (long s) and U+212A (Kelvin sign),
    go to S and K. *)
Fixpoint foldName (s : string) : string :=
  match s with
  | EmptyString => EmptyString
  | String "197" (String "191" r) => String "S" (foldName r)
  | String "226" (String "132" (String "170" r)) => String "K" (foldName r)
  | String c r =>
    let n := N_of_ascii c in
    if ((97 <=? n) && (n <=? 122))%N
    then String (ascii_of_N (n - 32)) (foldName r)
    else String c (foldName r)
  end.

Fixpoint lookupBy {F : Type} (eqb : string -> string -> bool)
    (fields : list (string * F)) (key : string) : option F :=
  match fields with
  | [] => None
  | (name, f) :: rest => if eqb name key then Some f else lookupBy eqb rest key
  end.

(** The struct field a member key names: an exact match first, else a
    match under case folding. *)
Definition findField {F : Type} (fields : list (string * F)) (key : string) : option F :=
  match lookupBy String.eqb fields key with
  | Some f => Some f
  | None => lookupBy (fun name k => String.eqb (foldName name) (foldName k)) fields key
  end.


Fixpoint assoc (key : string) (ms : list (string * json)) : option json :=
  match ms with
  | [] => None
  | (k, v) :: rest => if String.eqb k key then Some v else assoc key rest
  end.


(** *** Decoding results *)

(** How the decoding of a value ends: it went on to the end, with the first
    type mismatch saved to be returned ([decodeState.saveError]), or an
    [Unmarshaler] failed and decoding stopped at once. *)
Inductive Decoded (A : Type) : Type :=
| Went (a : A) (saved : option error)
| Stopped (a : A) (e : error).
Arguments Went {A} a saved.
Arguments Stopped {A} a e.

Definition decodedValue {A : Type} (d : Decoded A) : A :=
  match d with Went a _ => a | Stopped a _ => a end.

Definition decodedError {A : Type} (d : Decoded A) : option error :=
  match d with Went _ e => e | Stopped _ e => Some e end.

(** The first error wins. *)
Definition saveError (saved new : option error) : option error :=
  match saved with Some e => Some e | None => new end.

Definition mapDecoded {A B : Type} (f : A -> B) (d : Decoded A) : Decoded B :=
  match d with
  | Went a e => Went (f a) e
  | Stopped a e => Stopped (f a) e
  end.

(** Decode the members of an object one after the other into [a]. *)
Fixpoint decodeMembers {A : Type} (step : string -> json -> A -> Decoded A)
    (ms : list (string * json)) (a : A) (saved : option error) : Decoded A :=
  match ms with
  | [] => Went a saved
  | (k, v) :: rest =>
    match step k v a with
    | Went a' e => decodeMembers step rest a' (saveError saved e)
    | Stopped a' e => Stopped a' e
    end
  end.

(** A JSON value decoded into a Go [string]. *)
Definition decodeString (v : json) (cur : string) : Decoded string :=
  match v with
  | JString s => Went s None
  | JNull => Went cur None
  | _ => Went cur (Some (UnmarshalTypeError (jsonKind v) "string"))
  end.

(** A JSON value decoded into a Go [bool]. *)
Definition decodeBool (v : json) (cur : bool) : Decoded bool :=
  match v with
  | JBool b => Went b None
  | JNull => Went cur None
  | _ => Went cur (Some (UnmarshalTypeError (jsonKind v) "bool"))
  end.

(** A key put into a [map[string]interface{}], held as its members in the
    order of their keys, the order in which Marshal writes a map: a key
    already there gets the new value. *)
Fixpoint putMember (k : string) (v : json) (ms : list (string * json))
    : list (string * json) :=
  match ms with
  | [] => [(k, v)]
  | (k', v') :: rest =>
    match String.compare k k' with
    | Lt => (k, v) :: ms
    | Eq => (k, v) :: rest
    | Gt => (k', v') :: putMember k v rest
    end
  end.

(** ** Decimal numbers *)

(** [strconv.Itoa]. *)
Definition Itoa (i : Z) : string := NilZero.string_of_int (Z.to_int i).

(** ** The transport *)

(** A [*websocket.Conn], by its identity. *)
Definition Conn : Type := nat.

(** What is done to the network, the latest operation first. *)
Inductive NetOp : Type :=
| NetDial (url : string)
| NetWrite (c : Conn) (messageType : Z) (data : string)
| NetClose (c : Conn).

(** The network as the socket meets it: what each operation answers, given
    everything done before. *)
Record Network : Type := {
  Dial : list NetOp -> string -> Conn + error;
  WriteMessage : list NetOp -> Conn -> Z -> string -> option error;
  ConnClose : list NetOp -> Conn -> option error
}.

(** What [ReadMessage] hands to the receive loop. *)
Inductive ReadResult : Type :=
| ReadOk (messageType : Z) (raw : string)
| ReadErr (err : error).

(** ** Configuration, logging and the socket record *)

(** Modelled from the spec: the [Options] struct is declared outside
    [socket.go]; the spec lists its content as host, port, path, key,
    security flag, keepalive interval and diagnostic verbosity, and the code
    reads the fields below. *)
Record Options : Type := {
  Host : string;
  Port : Z;
  Path : string;
  Key : string;
  Secure : bool;
  PingInterval : Z;
  Debug : Z
}.

(** Modelled from the spec: the constant [SocketEventTypeMessage] is
    declared outside [socket.go]; the spec names the tag of the events of
    the receive loop "message". *)
Definition SocketEventTypeMessage : string := "message".

(** The lines the socket writes to its logger, one constructor for each
    call in [socket.go]. *)
Inductive LogEntry : Type :=
| DebugConnecting (url : string)
| WarnReadError (err : error)
| InfoRecv (msgType : Z) (raw : string)
| ErrorDecode (raw : string) (err : error)
| DebugCloseMessage (err : error)
| WarnCloseError (err : error).

(** The two loops that [Start] spawns. *)
Inductive Goroutine : Type :=
| KeepAliveLoop
| ReceiveLoop.

(** The [Socket] struct.  [mutex] is [true] while the lock is held; the
    embedded emitter and the logger are kept in the [World]. *)
Record Socket : Type := {
  id : string;
  opts : Options;
  baseURL : string;
  disconnected : bool;
  conn : option Conn;
  mutex : bool
}.

Definition NewSocket (o : Options) : Socket :=
  {| id := ""; opts := o; baseURL := ""; disconnected := true;
     conn := None; mutex := false |}.

Definition buildBaseURL (s : Socket) : string :=
  let proto := if Secure (opts s) then "wss" else "ws" in
  let port := Itoa (Port (opts s)) in
  proto ++ "://" ++ Host (opts s) ++ ":" ++ port ++ Path (opts s)
        ++ "/peerjs?key=" ++ Key (opts s).

(** The URL as the spec words it:
    {scheme}://{host}:{port}{path}/peerjs?key={key}&id={id}&token={token}. *)
Definition specURL (o : Options) (id token : string) : string :=
  (if Secure o then "wss" else "ws") ++ "://" ++ Host o ++ ":" ++ Itoa (Port o)
    ++ Path o ++ "/peerjs?key=" ++ Key o ++ "&id=" ++ id ++ "&token=" ++ token.

Definition set_baseURL (u : string) (s : Socket) : Socket :=
  {| id := id s; opts := opts s; baseURL := u; disconnected := disconnected s;
     conn := conn s; mutex := mutex s |}.

Definition set_disconnected (b : bool) (s : Socket) : Socket :=
  {| id := id s; opts := opts s; baseURL := baseURL s; disconnected := b;
     conn := conn s; mutex := mutex s |}.

Definition set_conn (c : option Conn) (s : Socket) : Socket :=
  {| id := id s; opts := opts s; baseURL := baseURL s; disconnected := disconnected s;
     conn := c; mutex := mutex s |}.

Definition set_mutex (b : bool) (s : Socket) : Socket :=
  {| id := id s; opts := opts s; baseURL := baseURL s; disconnected := disconnected s;
     conn := conn s; mutex := b |}.

(** The socket together with what it has done so far: the operations on
    the network, the log and the goroutines spawned, the latest first. *)
Record World : Type := {
  sock : Socket;
  wire : list NetOp;
  logged : list LogEntry;
  spawned : list Goroutine
}.

Definition newWorld (o : Options) : World :=
  {| sock := NewSocket o; wire := []; logged := []; spawned := [] |}.

(** How a call ends: it returns, it panics, or it waits for the mutex for
    ever. *)
Inductive Outcome (A : Type) : Type :=
| Done (a : A) (w : World)
| Panicked (w : World)
| Blocked (w : World).
Arguments Done {A} a w.
Arguments Panicked {A} w.
Arguments Blocked {A} w.

Definition finalWorld {A : Type} (o : Outcome A) : World :=
  match o with Done _ w => w | Panicked w => w | Blocked w => w end.

(** The state monad of the methods of [*Socket]. *)
Definition Go (A : Type) : Type := World -> Outcome A.

Definition ret {A : Type} (a : A) : Go A := fun w => Done a w.

Definition bind {A B : Type} (c : Go A) (k : A -> Go B) : Go B :=
  fun w =>
    match c w with
    | Done a w' => k a w'
    | Panicked w' => Panicked w'
    | Blocked w' => Blocked w'
    end.

Declare Scope go_scope.
Delimit Scope go_scope with go.
Notation "x <- c ;; k" := (bind c (fun x => k))
  (at level 61, c at next level, right associativity) : go_scope.
Notation "c ;; k" := (bind c (fun _ => k))
  (at level 61, right associativity) : go_scope.
Local Open Scope go_scope.

Definition panic {A : Type} : Go A := fun w => Panicked w.

Definition self : Go Socket := fun w => Done (sock w) w.

Definition update (f : Socket -> Socket) : Go unit :=
  fun w => Done tt {| sock := f (sock w); wire := wire w;
                      logged := logged w; spawned := spawned w |}.

Definition logf (l : LogEntry) : Go unit :=
  fun w => Done tt {| sock := sock w; wire := wire w;
                      logged := l :: logged w; spawned := spawned w |}.

Definition go (g : Goroutine) : Go unit :=
  fun w => Done tt {| sock := sock w; wire := wire w;
                      logged := logged w; spawned := g :: spawned w |}.

Definition onWire (op : NetOp) (w : World) : World :=
  {| sock := sock w; wire := op :: wire w; logged := logged w; spawned := spawned w |}.

(** [defer d] around [body]: [d] runs when [body] returns and when it
    panics. *)
Definition defer {A : Type} (d : Go unit) (body : Go A) : Go A :=
  fun w =>
    match body w with
    | Done a w' =>
      match d w' with
      | Done _ w'' => Done a w''
      | Panicked w'' => Panicked w''
      | Blocked w'' => Blocked w''
      end
    | Panicked w' =>
      match d w' with
      | Done _ w'' => Panicked w''
      | Panicked w'' => Panicked w''
      | Blocked w'' => Blocked w''
      end
    | Blocked w' => Blocked w'
    end.

Definition Lock : Go unit :=
  fun w => if mutex (sock w) then Blocked w else update (set_mutex true) w.

Definition Unlock : Go unit :=
  fun w => if mutex (sock w) then update (set_mutex false) w else Panicked w.

(** The calls a client makes on a socket. *)
Inductive Call : Type :=
| CallStart (id token : string)
| CallSend (msg : string)
| CallClose.

(** What one turn of the receive loop sees: [s.conn] is nil, or it is [c]
    and [c.ReadMessage()] answers [r]. *)
Inductive Tick : Type :=
| ConnNil
| Read (c : Conn) (r : ReadResult).

(** How the receive loop stands when the ticks given to it are used up. *)
Inductive LoopEnd : Type :=
| Returned
| Reading.

Inductive Control : Type :=
| Continue
| Return.

(** The close codes on which the receive loop returns. *)
Definition expectedClosure (err : error) : bool :=
  match err with
  | CloseError code _ =>
    ((code =? CloseNormalClosure) || (code =? CloseGoingAway)
       || (code =? CloseNoStatusReceived))%Z
  | _ => false
  end.

(** ** Concrete surroundings, for running the model *)

(** A session description with a JSON form of its own: a kind and the SDP
    text, as an object with the members "type" and "sdp". *)
Record PlainDescription : Type := {
  kind : string;
  sdpText : string
}.

Definition plainZero : PlainDescription := {| kind := ""; sdpText := "" |}.

Definition plainMarshal (d : PlainDescription) : json :=
  JObject [("type", JString (kind d)); ("sdp", JString (sdpText d))].

Definition plainUnmarshal (v : json) (cur : PlainDescription) : Decoded PlainDescription :=
  match v with
  | JObject ms =>
    match assoc "type" ms, assoc "sdp" ms with
    | Some (JString k), Some (JString t) => Went {| kind := k; sdpText := t |} None
    | _, _ => Stopped cur (UnmarshalerError "unknown")
    end
  | JNull => Went cur None
  | _ => Went cur (Some (UnmarshalTypeError (jsonKind v) "PlainDescription"))
  end.

(** A reader of JSON text that knows the three literal names and nothing
    else. *)
Definition parseLiteral (data : string) : json + error :=
  if String.eqb data "null" then inl JNull
  else if String.eqb data "true" then inl (JBool true)
  else if String.eqb data "false" then inl (JBool false)
  else inr (SyntaxError "invalid character").

(** A reader of numbers that knows the whole numbers of up to fifteen
    digits, which a float64 holds exactly and Marshal writes back digit for
    digit, and refuses every other literal. *)
Fixpoint allDigits (s : string) : bool :=
  match s with
  | EmptyString => true
  | String c r => byteIn 48 57 c && allDigits r
  end.

Definition wholeNumber (lit : string) : option string :=
  match lit with
  | EmptyString => None
  | String c r =>
    if allDigits lit && (String.length lit <=? 15)%nat
       && (negb (Ascii.eqb c "0") || String.eqb r "")
    then Some lit else None
  end.

(** A reader of JSON text that knows, besides those, the frame
    {"type":"OPEN"}. *)
Definition openFrame : string :=
  let quote := String "034" "" in
  "{" ++ quote ++ "type" ++ quote ++ ":" ++ quote ++ "OPEN" ++ quote ++ "}".

Definition parseOpen (data : string) : json + error :=
  if String.eqb data openFrame then inl (JObject [("type", JString "OPEN")])
  else parseLiteral data.

(** A network on which everything succeeds; a dial answers a fresh
    handle. *)
Definition netUp : Network :=
  {| Dial := fun past _ => inl (length past);
     WriteMessage := fun _ _ _ _ => None;
     ConnClose := fun _ _ => None |}.

(** A network on which no dial succeeds. *)
Definition netDown : Network :=
  {| Dial := fun _ _ => inr (NetError "connection refused");
     WriteMessage := fun _ _ _ _ => Some (NetError "broken pipe");
     ConnClose := fun _ _ => Some (NetError "use of closed connection") |}.

(** A network on which a dial succeeds and every later operation fails. *)
Definition netBroken : Network :=
  {| Dial := fun _ _ => inl 7;
     WriteMessage := fun _ _ _ _ => Some (NetError "broken pipe");
     ConnClose := fun _ _ => Some (NetError "close failed") |}.

(** The configuration of the spec's example. *)
Definition exampleOptions : Options :=
  {| Host := "sig.example.com"; Port := 443; Path := ""; Key := "k1";
     Secure := true; PingInterval := 5000; Debug := 0 |}.

Section Peer.

(** [webrtc.SessionDescription] belongs to pion/webrtc: its type, its zero
    value and its JSON form are taken as given.  So are the reader of JSON
    text of [encoding/json] and the network. *)
Variable SessionDescription : Type.
Variable sdpZero : SessionDescription.
Variable sdpMarshal : SessionDescription -> json.
Variable sdpUnmarshal : json -> SessionDescription -> Decoded SessionDescription.
Variable jsonParse : string -> json + error.
Variable net : Network.

(** A number that goes into an [interface{}] becomes a [float64]:
    [float64Literal lit] is the literal Marshal writes for the float64
    that [strconv.ParseFloat] reads from [lit], [None] when [lit] is out of
    the range of float64. *)
Variable float64Literal : string -> option string.

(** ** Messages *)

(** [Metadata] is an [interface{}]: [None] is the nil interface, [Some v]
    a dynamic value, held as the tree it is written as. *)
Record Payload : Type := {
  Payload_Type : string;
  ConnectionID : string;
  Metadata : option json;
  Label : string;
  Serialization : string;
  Reliable : bool;
  Candidate : string;
  SDP : option SessionDescription;
  Browser : string
}.

Record Message : Type := {
  Message_Type : string;
  Message_Payload : Payload;
  Src : string;
  Dst : string
}.

Definition GetPayload (m : Message) : Payload := Message_Payload m.
Definition GetSrc (m : Message) : string := Src m.
Definition GetDst (m : Message) : string := Dst m.
Definition GetType (m : Message) : string := Message_Type m.

(** [Payload{}] and [Message{}]. *)
Definition zeroPayload : Payload :=
  {| Payload_Type := ""; ConnectionID := ""; Metadata := None; Label := "";
     Serialization := ""; Reliable := false; Candidate := ""; SDP := None;
     Browser := "" |}.

Definition zeroMessage : Message :=
  {| Message_Type := ""; Message_Payload := zeroPayload; Src := ""; Dst := "" |}.

(** *** Encoding, as the struct tags have it *)

Definition always (name value : string) : list (string * json) :=
  [(name, JString (toValidUTF8 value))].

Definition omitempty (name value : string) : list (string * json) :=
  if String.eqb value "" then [] else [(name, JString (toValidUTF8 value))].

Definition encodePayload (p : Payload) : json :=
  JObject
    (always "type" (Payload_Type p)
     ++ always "connectionId" (ConnectionID p)
     ++ match Metadata p with None => [] | Some v => [("metadata", v)] end
     ++ omitempty "label" (Label p)
     ++ omitempty "serialization" (Serialization p)
     ++ (if Reliable p then [("reliable", JBool true)] else [])
     ++ omitempty "candidate" (Candidate p)
     ++ match SDP p with None => [] | Some d => [("sdp", sdpMarshal d)] end
     ++ omitempty "browser" (Browser p)).

Definition encodeMessage (m : Message) : json :=
  JObject
    (always "type" (Message_Type m)
     ++ [("payload", encodePayload (Message_Payload m))]
     ++ always "src" (Src m)
     ++ omitempty "dst" (Dst m)).

(** *** Decoding *)

(** A JSON value as the dynamic value Unmarshal makes of it, held as the
    tree that value is written as: a number goes through float64, and is
    nil with a type error saved when it is out of range; an object becomes
    a map, its keys in order and the last member of a key winning; an
    array becomes a slice. *)
Fixpoint asInterface (v : json) : json * option error :=
  match v with
  | JNull => (JNull, None)
  | JBool b => (JBool b, None)
  | JString s => (JString s, None)
  | JNumber lit =>
    match float64Literal lit with
    | Some canonical => (JNumber canonical, None)
    | None => (JNull, Some (UnmarshalTypeError ("number " ++ lit) "float64"))
    end
  | JArray items =>
    let fix elements (l : list json) : list json * option error :=
      match l with
      | [] => ([], None)
      | x :: rest =>
        let '(x', e1) := asInterface x in
        let '(rest', e2) := elements rest in
        (x' :: rest', saveError e1 e2)
      end in
    let '(items', e) := elements items in (JArray items', e)
  | JObject members =>
    let fix entries (l : list (string * json)) (m : list (string * json))
        (saved : option error) : list (string * json) * option error :=
      match l with
      | [] => (m, saved)
      | (k, x) :: rest =>
        let '(x', e) := asInterface x in
        entries rest (putMember k x' m) (saveError saved e)
      end in
    let '(m, e) := entries members [] None in (JObject m, e)
  end.

(** A JSON value decoded into an [interface{}] field that holds [cur]:
    null makes it nil; a number out of range leaves it as it is and saves
    the type error; any other value is stored as [asInterface] has it. *)
Definition decodeInterface (v : json) (cur : option json) : Decoded (option json) :=
  match v with
  | JNull => Went None None
  | JNumber lit =>
    match float64Literal lit with
    | Some canonical => Went (Some (JNumber canonical)) None
    | None => Went cur (Some (UnmarshalTypeError ("number " ++ lit) "float64"))
    end
  | _ => let '(v', e) := asInterface v in Went (Some v') e
  end.

Inductive PayloadField : Type :=
| FType | FConnectionID | FMetadata | FLabel | FSerialization
| FReliable | FCandidate | FSDP | FBrowser.

Definition payloadFields : list (string * PayloadField) :=
  [("type", FType); ("connectionId", FConnectionID); ("metadata", FMetadata);
   ("label", FLabel); ("serialization", FSerialization); ("reliable", FReliable);
   ("candidate", FCandidate); ("sdp", FSDP); ("browser", FBrowser)].

Inductive MessageField : Type :=
| MType | MPayload | MSrc | MDst.

Definition messageFields : list (string * MessageField) :=
  [("type", MType); ("payload", MPayload); ("src", MSrc); ("dst", MDst)].

(** A JSON value decoded into the pointer field [SDP]: null makes it nil,
    anything else is decoded into the description it points to, a new zero
    one when it is nil. *)
Definition decodeSDP (v : json) (cur : option SessionDescription)
    : Decoded (option SessionDescription) :=
  match v with
  | JNull => Went None None
  | _ => mapDecoded Some
           (sdpUnmarshal v (match cur with Some d => d | None => sdpZero end))
  end.

Definition decodePayloadField (k : string) (v : json) (p : Payload) : Decoded Payload :=
  match findField payloadFields k with
  | None => Went p None
  | Some FType =>
    mapDecoded (fun x =>
      {| Payload_Type := x; ConnectionID := ConnectionID p; Metadata := Metadata p;
         Label := Label p; Serialization := Serialization p; Reliable := Reliable p;
         Candidate := Candidate p; SDP := SDP p; Browser := Browser p |})
      (decodeString v (Payload_Type p))
  | Some FConnectionID =>
    mapDecoded (fun x =>
      {| Payload_Type := Payload_Type p; ConnectionID := x; Metadata := Metadata p;
         Label := Label p; Serialization := Serialization p; Reliable := Reliable p;
         Candidate := Candidate p; SDP := SDP p; Browser := Browser p |})
      (decodeString v (ConnectionID p))
  | Some FMetadata =>
    mapDecoded (fun x =>
      {| Payload_Type := Payload_Type p; ConnectionID := ConnectionID p; Metadata := x;
         Label := Label p; Serialization := Serialization p; Reliable := Reliable p;
         Candidate := Candidate p; SDP := SDP p; Browser := Browser p |})
      (decodeInterface v (Metadata p))
  | Some FLabel =>
    mapDecoded (fun x =>
      {| Payload_Type := Payload_Type p; ConnectionID := ConnectionID p;
         Metadata := Metadata p; Label := x; Serialization := Serialization p;
         Reliable := Reliable p; Candidate := Candidate p; SDP := SDP p;
         Browser := Browser p |})
      (decodeString v (Label p))
  | Some FSerialization =>
    mapDecoded (fun x =>
      {| Payload_Type := Payload_Type p; ConnectionID := ConnectionID p;
         Metadata := Metadata p; Label := Label p; Serialization := x;
         Reliable := Reliable p; Candidate := Candidate p; SDP := SDP p;
         Browser := Browser p |})
      (decodeString v (Serialization p))
  | Some FReliable =>
    mapDecoded (fun x =>
      {| Payload_Type := Payload_Type p; ConnectionID := ConnectionID p;
         Metadata := Metadata p; Label := Label p; Serialization := Serialization p;
         Reliable := x; Candidate := Candidate p; SDP := SDP p;
         Browser := Browser p |})
      (decodeBool v (Reliable p))
  | Some FCandidate =>
    mapDecoded (fun x =>
      {| Payload_Type := Payload_Type p; ConnectionID := ConnectionID p;
         Metadata := Metadata p; Label := Label p; Serialization := Serialization p;
         Reliable := Reliable p; Candidate := x; SDP := SDP p;
         Browser := Browser p |})
      (decodeString v (Candidate p))
  | Some FSDP =>
    mapDecoded (fun x =>
      {| Payload_Type := Payload_Type p; ConnectionID := ConnectionID p;
         Metadata := Metadata p; Label := Label p; Serialization := Serialization p;
         Reliable := Reliable p; Candidate := Candidate p; SDP := x;
         Browser := Browser p |})
      (decodeSDP v (SDP p))
  | Some FBrowser =>
    mapDecoded (fun x =>
      {| Payload_Type := Payload_Type p; ConnectionID := ConnectionID p;
         Metadata := Metadata p; Label := Label p; Serialization := Serialization p;
         Reliable := Reliable p; Candidate := Candidate p; SDP := SDP p;
         Browser := x |})
      (decodeString v (Browser p))
  end.

(** A JSON value decoded into a [Payload] struct that holds [cur]. *)
Definition decodePayload (v : json) (cur : Payload) : Decoded Payload :=
  match v with
  | JObject ms => decodeMembers decodePayloadField ms cur None
  | JNull => Went cur None
  | _ => Went cur (Some (UnmarshalTypeError (jsonKind v) "peer.Payload"))
  end.

Definition decodeMessageField (k : string) (v : json) (m : Message) : Decoded Message :=
  match findField messageFields k with
  | None => Went m None
  | Some MType =>
    mapDecoded (fun x =>
      {| Message_Type := x; Message_Payload := Message_Payload m;
         Src := Src m; Dst := Dst m |})
      (decodeString v (Message_Type m))
  | Some MPayload =>
    mapDecoded (fun x =>
      {| Message_Type := Message_Type m; Message_Payload := x;
         Src := Src m; Dst := Dst m |})
      (decodePayload v (Message_Payload m))
  | Some MSrc =>
    mapDecoded (fun x =>
      {| Message_Type := Message_Type m; Message_Payload := Message_Payload m;
         Src := x; Dst := Dst m |})
      (decodeString v (Src m))
  | Some MDst =>
    mapDecoded (fun x =>
      {| Message_Type := Message_Type m; Message_Payload := Message_Payload m;
         Src := Src m; Dst := x |})
      (decodeString v (Dst m))
  end.

(** A JSON value decoded into a [Message] struct that holds [cur]. *)
Definition decodeMessage (v : json) (cur : Message) : Decoded Message :=
  match v with
  | JObject ms => decodeMembers decodeMessageField ms cur None
  | JNull => Went cur None
  | _ => Went cur (Some (UnmarshalTypeError (jsonKind v) "peer.Message"))
  end.

(** [json.Unmarshal(data, &msg)]: the message afterwards and the error.
    Text that is not JSON leaves the message as it was. *)
Definition Unmarshal (data : string) (msg : Message) : Message * option error :=
  match jsonParse data with
  | inr e => (msg, Some e)
  | inl v => let d := decodeMessage v msg in (decodedValue d, decodedError d)
  end.

(** *** What the spec says of the encoding, to be held against it *)





(** ** The socket *)

(** [websocket.DefaultDialer.Dial(url, nil)]. *)
Definition dial (url : string) : Go (Conn + error) :=
  fun w => Done (Dial net (wire w) url) (onWire (NetDial url) w).

(** [c.WriteMessage(messageType, data)]; a nil [c] is dereferenced. *)
Definition connWriteMessage (c : option Conn) (messageType : Z) (data : string)
    : Go (option error) :=
  match c with
  | None => panic
  | Some h =>
    fun w => Done (WriteMessage net (wire w) h messageType data)
                  (onWire (NetWrite h messageType data) w)
  end.

(** [c.Close()]; a nil [c] is dereferenced. *)
Definition connClose (c : option Conn) : Go (option error) :=
  match c with
  | None => panic
  | Some h => fun w => Done (ConnClose net (wire w) h) (onWire (NetClose h) w)
  end.

(** The base URL [Start] goes on with, and the URL it dials. *)
Definition baseURLOnce (s : Socket) : string :=
  if String.eqb (baseURL s) "" then buildBaseURL s else baseURL s.

Definition dialURL (s : Socket) (id token : string) : string :=
  baseURLOnce s ++ "&id=" ++ id ++ "&token=" ++ token.

Definition Start (id token : string) : Go (option error) :=
  s <- self ;;
  if negb (disconnected s) then ret None
  else
    (if String.eqb (baseURL s) "" then update (set_baseURL (buildBaseURL s))
     else ret tt) ;;
    s <- self ;;
    let url := baseURL s ++ "&id=" ++ id ++ "&token=" ++ token in
    logf (DebugConnecting url) ;;
    r <- dial url ;;
    match r with
    | inr err => ret (Some err)
    | inl c =>
      update (set_conn (Some c)) ;;
      go KeepAliveLoop ;;
      go ReceiveLoop ;;
      ret None
    end.

Definition Close : Go (option error) :=
  s <- self ;;
  if disconnected s then ret None
  else
    err <- connWriteMessage (conn s) CloseMessage
             (FormatCloseMessage CloseNormalClosure "") ;;
    match err with
    | Some e => logf (DebugCloseMessage e)
    | None => ret tt
    end ;;
    s <- self ;;
    err <- connClose (conn s) ;;
    match err with
    | Some e => logf (WarnCloseError e)
    | None => ret tt
    end ;;
    update (set_disconnected true) ;;
    update (set_conn None) ;;
    ret err.

Definition Send (msg : string) : Go (option error) :=
  s <- self ;;
  match conn s with
  | None => ret None
  | Some _ =>
    Lock ;;
    defer Unlock
      (s <- self ;; connWriteMessage (conn s) TextMessage msg)
  end.

Definition call (c : Call) : Go (option error) :=
  match c with
  | CallStart id token => Start id token
  | CallSend msg => Send msg
  | CallClose => Close
  end.

(** The worlds a client can bring a new socket to, call after call.  The
    [Close] that the keepalive loop defers is one more [CallClose]. *)
Inductive Reachable (o : Options) : World -> Prop :=
| reach_new : Reachable o (newWorld o)
| reach_call c r w w' :
    Reachable o w -> call c w = Done r w' -> Reachable o w'.

(** The worlds reached without any [Start] that returned nil. *)
Inductive NeverStarted (o : Options) : World -> Prop :=
| never_new : NeverStarted o (newWorld o)
| never_start id token e w w' :
    NeverStarted o w -> Start id token w = Done (Some e) w' -> NeverStarted o w'
| never_send msg r w w' :
    NeverStarted o w -> Send msg w = Done r w' -> NeverStarted o w'
| never_close r w w' :
    NeverStarted o w -> Close w = Done r w' -> NeverStarted o w'.

(** What holds of the socket in every world a client can reach. *)
Definition Stable (o : Options) (s : Socket) : Prop :=
  opts s = o /\ disconnected s = true
  /\ (baseURL s = "" \/ baseURL s = buildBaseURL s).

(** The state the spec calls Connected and the one it calls Disconnected,
    and the consistency of the handle with the flag. *)
Definition Connected (s : Socket) : Prop :=
  disconnected s = false /\ conn s <> None.

Definition Disconnected (s : Socket) : Prop :=
  disconnected s = true /\ conn s = None.

Definition consistent (s : Socket) : bool :=
  match conn s with
  | Some _ => negb (disconnected s)
  | None => disconnected s
  end.

(** ** The receive loop *)

Record SocketEvent : Type := {
  Event_Type : string;
  Event_Message : option Message;
  Event_Error : option error
}.

(** What the receive loop does that can be seen: a line in the log, or a
    call of [s.Emit]. *)
Inductive Effect : Type :=
| Logged (l : LogEntry)
| Emitted (tag : string) (ev : SocketEvent).

Definition published (effects : list Effect) : list (string * SocketEvent) :=
  flat_map (fun e => match e with
                     | Emitted tag ev => [(tag, ev)]
                     | Logged _ => []
                     end) effects.

(** One turn of the [for] of the second goroutine of [Start]. *)
Definition receiveTurn (t : Tick) : list Effect * Control :=
  match t with
  | ConnNil => ([], Return)
  | Read _ (ReadErr err) =>
    if expectedClosure err then ([], Return)
    else ([Logged (WarnReadError err)], Continue)
  | Read _ (ReadOk msgType raw) =>
    (Logged (InfoRecv msgType raw)
     :: (if (msgType =? TextMessage)%Z then
           let '(msg, err) := Unmarshal raw zeroMessage in
           (match err with
            | Some e => [Logged (ErrorDecode raw e)]
            | None => []
            end
            ++ [Emitted SocketEventTypeMessage
                  {| Event_Type := SocketEventTypeMessage;
                     Event_Message := Some msg;
                     Event_Error := err |}])%list
         else []),
     Continue)
  end.

(** The loop over the turns it is given. *)
Fixpoint receiveLoop (ticks : list Tick) : list Effect * LoopEnd :=
  match ticks with
  | [] => ([], Reading)
  | t :: rest =>
    match receiveTurn t with
    | (effects, Return) => (effects, Returned)
    | (effects, Continue) =>
      let '(later, e) := receiveLoop rest in ((effects ++ later)%list, e)
    end
  end.

(** ** The keepalive loop *)

(** How the keepalive loop stands when the ticks given to it are used up:
    it waits for the ticker, or it has returned. *)
Inductive KeepAliveEnd : Type :=
| TickerWaiting
| TickerStopped.

(** The [for] of the first goroutine of [Start], over the ticks the ticker
    delivers: a nil handle ends it, and so does a ping that fails. *)
Fixpoint keepAliveTicks (ticks : nat) : Go KeepAliveEnd :=
  match ticks with
  | O => ret TickerWaiting
  | S later =>
    s <- self ;;
    match conn s with
    | None => ret TickerStopped
    | Some _ =>
      Lock ;;
      s <- self ;;
      err <- connWriteMessage (conn s) PingMessage "" ;;
      match err with
      | Some _ => Unlock ;; ret TickerStopped
      | None => Unlock ;; keepAliveTicks later
      end
    end
  end.

(** Go's [int64], with its wrap-around. *)
Definition wrap64 (z : Z) : Z := ((z + 2 ^ 63) mod 2 ^ 64 - 2 ^ 63)%Z.

(** [time.Millisecond * time.Duration(s.opts.PingInterval)]: the period of
    the ticker, in nanoseconds. *)
Definition tickerPeriod (s : Socket) : Z :=
  wrap64 (1000000 * PingInterval (opts s)).

(** The goroutine: [time.NewTicker], which panics on a period that is not
    positive, before anything is deferred; then the loop, and the deferred
    [s.Close()] once the loop returns or panics.  The goroutine runs here
    without a call of the client in between. *)
Definition keepAlive (ticks : nat) : Go KeepAliveEnd :=
  fun w =>
    if (tickerPeriod (sock w) <=? 0)%Z then Panicked w
    else
      match keepAliveTicks ticks w with
      | Done TickerWaiting w' => Done TickerWaiting w'
      | Done TickerStopped w' => (Close ;; ret TickerStopped) w'
      | Panicked w' =>
        match Close w' with
        | Done _ w'' => Panicked w''
        | Panicked w'' => Panicked w''
        | Blocked w'' => Blocked w''
        end
      | Blocked w' => Blocked w'
      end.

(** The worlds reached by the calls of a client and the runs of the
    keepalive loop. *)
Inductive Runs (o : Options) : World -> Prop :=
| runs_new : Runs o (newWorld o)
| runs_call c r w w' :
    Runs o w -> call c w = Done r w' -> Runs o w'
| runs_keepAlive ticks r w w' :
    Runs o w -> keepAlive ticks w = Done r w' -> Runs o w'.

(** The operations that leave the connection open: a dial, and a write
    that is no close frame. *)
Definition keepsOpen (op : NetOp) : Prop :=
  match op with
  | NetDial _ => True
  | NetWrite _ messageType _ => messageType = TextMessage \/ messageType = PingMessage
  | NetClose _ => False
  end.

(** ** The receive loop, frame by frame *)

(** The event the loop publishes for the text frame [raw]. *)
Definition eventOf (raw : string) : string * SocketEvent :=
  let '(msg, err) := Unmarshal raw zeroMessage in
  (SocketEventTypeMessage,
   {| Event_Type := SocketEventTypeMessage; Event_Message := Some msg;
      Event_Error := err |}).

(** The text frames among the turns, up to the turn on which the loop
    returns. *)
Fixpoint textFrames (ticks : list Tick) : list string :=
  match ticks with
  | [] => []
  | ConnNil :: _ => []
  | Read _ (ReadErr err) :: rest =>
    if expectedClosure err then [] else textFrames rest
  | Read _ (ReadOk msgType raw) :: rest =>
    if (msgType =? TextMessage)%Z then raw :: textFrames rest else textFrames rest
  end.

(** The keys of an object. *)
Definition keys (v : json) : list string :=
  match v with
  | JObject ms => map fst ms
  | _ => []
  end.

(** * Properties *)

(** ** Calls on the socket, case by case *)

Lemma Start_not_disconnected (id token : string) (w : World) :
  disconnected (sock w) = false -> Start id token w = Done None w.
Proof.
  intros H. unfold Start, bind, self. rewrite H. reflexivity.
Qed.

Lemma Start_disconnected (id token : string) (w : World) :
  disconnected (sock w) = true ->
  let s := set_baseURL (baseURLOnce (sock w)) (sock w) in
  let url := dialURL (sock w) id token in
  Start id token w =
    match Dial net (wire w) url with
    | inr err =>
      Done (Some err)
        {| sock := s; wire := NetDial url :: wire w;
           logged := DebugConnecting url :: logged w; spawned := spawned w |}
    | inl c =>
      Done None
        {| sock := set_conn (Some c) s; wire := NetDial url :: wire w;
           logged := DebugConnecting url :: logged w;
           spawned := ReceiveLoop :: KeepAliveLoop :: spawned w |}
    end.
Proof.
  intros H. destruct w as [s wi lo sp]. simpl in H.
  unfold Start, bind, self, dialURL, baseURLOnce. simpl. rewrite H. simpl.
  destruct (String.eqb (baseURL s) "") eqn:E; simpl.
  - destruct (Dial net wi _); reflexivity.
  - destruct s as [i o b d c m]; simpl in *.
    destruct (Dial net wi _); reflexivity.
Qed.

Lemma Close_disconnected (w : World) :
  disconnected (sock w) = true -> Close w = Done None w.
Proof.
  intros H. unfold Close, bind, self. rewrite H. reflexivity.
Qed.

Lemma Close_not_disconnected (w : World) (c : Conn) :
  disconnected (sock w) = false -> conn (sock w) = Some c ->
  let frame := NetWrite c CloseMessage (FormatCloseMessage CloseNormalClosure "") in
  let sent := WriteMessage net (wire w) c CloseMessage
                (FormatCloseMessage CloseNormalClosure "") in
  let err := ConnClose net (frame :: wire w) c in
  Close w =
    Done err
      {| sock := set_conn None (set_disconnected true (sock w));
         wire := NetClose c :: frame :: wire w;
         logged :=
           match err with Some e => [WarnCloseError e] | None => [] end
           ++ match sent with Some e => [DebugCloseMessage e] | None => [] end
           ++ logged w;
         spawned := spawned w |}.
Proof.
  intros Hd Hc. destruct w as [s wi lo sp]. simpl in *.
  unfold Close, bind, self. simpl. rewrite Hd, Hc. simpl.
  destruct (WriteMessage net wi c _ _); simpl; rewrite Hc; simpl;
    destruct (ConnClose net _ c); reflexivity.
Qed.

Lemma Close_nil_panics (w : World) :
  disconnected (sock w) = false -> conn (sock w) = None -> Close w = Panicked w.
Proof.
  intros Hd Hc. unfold Close, bind, self. rewrite Hd, Hc. reflexivity.
Qed.

Lemma Send_nil (msg : string) (w : World) :
  conn (sock w) = None -> Send msg w = Done None w.
Proof.
  intros H. unfold Send, bind, self. rewrite H. reflexivity.
Qed.

(** ** What every reachable world has *)

Lemma Send_sock (msg : string) (w : World) (r : option error) (w' : World) :
  Send msg w = Done r w' ->
  opts (sock w') = opts (sock w) /\ disconnected (sock w') = disconnected (sock w)
  /\ baseURL (sock w') = baseURL (sock w) /\ conn (sock w') = conn (sock w).
Proof.
  destruct w as [s wi lo sp]. unfold Send, bind, self, Lock, Unlock, defer. simpl.
  destruct (conn s) as [c|] eqn:Hc.
  - simpl. destruct (mutex s) eqn:Hm; simpl; [intros H; discriminate H|].
    rewrite Hc. simpl.
    intros H; inversion H; subst; simpl. auto.
  - intros H; inversion H; subst; simpl. auto.
Qed.

Lemma buildBaseURL_opts (s s' : Socket) :
  opts s' = opts s -> buildBaseURL s' = buildBaseURL s.
Proof. unfold buildBaseURL. intros ->. reflexivity. Qed.

Lemma call_Stable (o : Options) (c : Call) (w : World) (r : option error) (w' : World) :
  Stable o (sock w) -> call c w = Done r w' -> Stable o (sock w').
Proof.
  intros (Ho & Hd & Hb) H. destruct c as [id token|msg|]; simpl in H.
  - rewrite (Start_disconnected id token w Hd) in H.
    assert (Hs : Stable o (set_baseURL (baseURLOnce (sock w)) (sock w))).
    { unfold Stable, baseURLOnce, buildBaseURL. simpl. repeat split; auto.
      destruct (String.eqb (baseURL (sock w)) "") eqn:E; auto. }
    destruct (Dial net _ _); inversion H; subst; simpl; exact Hs.
  - destruct (Send_sock _ _ _ _ H) as (E1 & E2 & E3 & _).
    unfold Stable. rewrite E1, E2, E3, (buildBaseURL_opts _ _ E1). auto.
  - rewrite (Close_disconnected w Hd) in H. inversion H; subst.
    unfold Stable; auto.
Qed.

Lemma Reachable_Stable (o : Options) (w : World) :
  Reachable o w -> Stable o (sock w).
Proof.
  induction 1 as [|c r w w' _ IH H].
  - unfold Stable; simpl; auto.
  - exact (call_Stable o c w r w' IH H).
Qed.

Lemma NeverStarted_nil (o : Options) (w : World) :
  NeverStarted o w -> conn (sock w) = None /\ Stable o (sock w).
Proof.
  induction 1 as [|id token e w w' _ [IHc IHs] H|msg r w w' _ [IHc IHs] H
                  |r w w' _ [IHc IHs] H].
  - unfold Stable; simpl; auto.
  - split; [|exact (call_Stable o (CallStart id token) w _ w' IHs H)].
    destruct IHs as (_ & Hd & _).
    rewrite (Start_disconnected id token w Hd) in H.
    destruct (Dial net _ _); inversion H; subst; simpl; exact IHc.
  - rewrite (Send_nil msg w IHc) in H. inversion H; subst. auto.
  - destruct IHs as (Ho & Hd & Hb).
    rewrite (Close_disconnected w Hd) in H. inversion H; subst.
    unfold Stable; auto.
Qed.

Lemma append_assoc (a b c : string) : (a ++ b) ++ c = a ++ (b ++ c).
Proof.
  induction a as [|x a IH]; simpl; [reflexivity|]. now rewrite IH.
Qed.

Lemma dialURL_Stable (o : Options) (s : Socket) (id token : string) :
  Stable o s -> dialURL s id token = specURL o id token.
Proof.
  intros (Ho & _ & Hb). unfold dialURL, baseURLOnce.
  assert (E : (if String.eqb (baseURL s) "" then buildBaseURL s else baseURL s)
              = buildBaseURL s).
  { destruct (String.eqb (baseURL s) "") eqn:Eb; [reflexivity|].
    destruct Hb as [Hb|Hb]; [|exact Hb].
    rewrite Hb in Eb. discriminate Eb. }
  rewrite E. unfold buildBaseURL, specURL. rewrite Ho.
  repeat rewrite append_assoc. reflexivity.
Qed.

(** ** The lifecycle *)

(** C1, where the code departs from the claim.  A [Start] that succeeds on
    a socket whose flag is set records the handle and leaves the flag set:
    [Start] never assigns [disconnected].  So the socket does not become
    Connected, and the next [Start], whatever its arguments, dials again. *)
Theorem Start_leaves_disconnected_set (w : World) (id token : string) (w' : World) :
  disconnected (sock w) = true ->
  Start id token w = Done None w' ->
  conn (sock w') <> None
  /\ disconnected (sock w') = true
  /\ ~ Connected (sock w')
  /\ forall id' token',
       wire (finalWorld (Start id' token' w'))
       = NetDial (dialURL (sock w') id' token') :: wire w'.
Proof.
  intros Hd H. rewrite (Start_disconnected id token w Hd) in H.
  destruct (Dial net _ _) as [c|e]; [|discriminate H].
  inversion H; subst; clear H. unfold Connected. simpl.
  split; [discriminate|]. split; [exact Hd|].
  split; [intros [E _]; rewrite Hd in E; discriminate E|].
  intros id' token'. rewrite Start_disconnected by exact Hd.
  destruct (Dial net _ _); reflexivity.
Qed.

(** C2, where the code departs from the claim.  Whenever a client's [Start]
    succeeds, the world it reaches has a handle and the flag set: the
    handle and the flag disagree. *)
Theorem Start_breaks_consistency (o : Options) (w : World) (id token : string)
    (w' : World) :
  Reachable o w ->
  Start id token w = Done None w' ->
  Reachable o w' /\ conn (sock w') <> None /\ disconnected (sock w') = true
  /\ consistent (sock w') = false.
Proof.
  intros Hr H.
  split; [exact (reach_call o (CallStart id token) None w w' Hr H)|].
  destruct (Reachable_Stable o w Hr) as (_ & Hd & _).
  rewrite (Start_disconnected id token w Hd) in H.
  destruct (Dial net _ _) as [c|e]; [|discriminate H].
  inversion H; subst; clear H. unfold consistent. simpl. rewrite Hd.
  repeat split. discriminate.
Qed.

(** C3.  [Close] twice leaves the world that [Close] once leaves; a [Close]
    that follows a [Close] returns nil and changes nothing, and so does
    any [Close] on a socket whose flag is set: no operation on the network,
    no line in the log, no change of the socket. *)
Theorem Close_idempotent (w : World) :
  finalWorld ((Close ;; Close) w) = finalWorld (Close w)
  /\ (forall r w', Close w = Done r w' -> Close w' = Done None w')
  /\ (disconnected (sock w) = true -> Close w = Done None w).
Proof.
  destruct (disconnected (sock w)) eqn:Hd.
  - pose proof (Close_disconnected w Hd) as E. unfold bind. rewrite E.
    split; [|split].
    + rewrite E. reflexivity.
    + intros r w' H. inversion H; subst. exact E.
    + reflexivity.
  - destruct (conn (sock w)) as [c|] eqn:Hc.
    + pose proof (Close_not_disconnected w c Hd Hc) as E. simpl in E.
      unfold bind. rewrite E. split; [|split].
      * cbv beta iota. rewrite Close_disconnected by reflexivity. reflexivity.
      * intros r w' H. inversion H; subst.
        apply Close_disconnected. reflexivity.
      * intros H; discriminate H.
    + pose proof (Close_nil_panics w Hd Hc) as E. unfold bind. rewrite E.
      split; [reflexivity|]. split; intros; discriminate.
Qed.

(** C5, where the code departs from the claim.  The socket a [Start] that
    succeeded leaves has a handle, and no other socket a client reaches
    has one; on it [Close] returns nil at its guard, because [Start] left
    the flag set: no close frame is written, the handle is not closed and
    stays in the socket, and the flag is as before. *)
Theorem Close_after_Start_keeps_connection (o : Options) (w : World)
    (id token : string) (w' : World) :
  Reachable o w ->
  Start id token w = Done None w' ->
  exists c, conn (sock w') = Some c /\ Close w' = Done None w'.
Proof.
  intros Hr H.
  destruct (Reachable_Stable o w Hr) as (_ & Hd & _).
  rewrite (Start_disconnected id token w Hd) in H.
  destruct (Dial net _ _) as [c|e]; [|discriminate H].
  inversion H; subst; clear H.
  exists c. split; [reflexivity|]. apply Close_disconnected. exact Hd.
Qed.

(** The body of [Close] past its guard, which no socket a client reaches
    gets to: with the flag clear and the handle [c], [Close] writes the
    close frame with the normal-closure code on [c], then closes [c], and
    returns what that close answers, whatever the write answered;
    afterwards the flag is set and the handle nil. *)
Lemma Close_returns_close_error (w : World) :
  Connected (sock w) ->
  exists c w',
    let frame := NetWrite c CloseMessage (FormatCloseMessage CloseNormalClosure "") in
    conn (sock w) = Some c
    /\ Close w = Done (ConnClose net (frame :: wire w) c) w'
    /\ wire w' = NetClose c :: frame :: wire w
    /\ Disconnected (sock w').
Proof.
  intros [Hd Hc]. destruct (conn (sock w)) as [c|] eqn:E; [|contradiction Hc; reflexivity].
  pose proof (Close_not_disconnected w c Hd E) as HC. simpl in HC.
  exists c. eexists. split; [reflexivity|]. split; [exact HC|].
  unfold Disconnected. simpl. auto.
Qed.

(** C6.  On a socket on which no [Start] has succeeded, [Send] returns nil
    and leaves the world as it is: nothing is written. *)
Theorem Send_before_Start (o : Options) (w : World) (msg : string) :
  NeverStarted o w -> Send msg w = Done None w.
Proof.
  intros H. apply Send_nil. exact (proj1 (NeverStarted_nil o w H)).
Qed.

(** C7.  From any world a client can reach with the flag set, [Start]
    dials the URL of the spec, and nothing else goes on the network; for
    the configuration of the example that URL is the one the spec gives. *)
Theorem Start_dials_spec_URL :
  (forall (o : Options) (w : World) (id token : string),
      Reachable o w ->
      disconnected (sock w) = true ->
      wire (finalWorld (Start id token w)) = NetDial (specURL o id token) :: wire w)
  /\ specURL exampleOptions "abc" "tok123"
     = "wss://sig.example.com:443/peerjs?key=k1&id=abc&token=tok123".
Proof.
  split; [|reflexivity].
  intros o w id token Hr Hd.
  rewrite (Start_disconnected id token w Hd).
  rewrite (dialURL_Stable o (sock w) id token (Reachable_Stable o w Hr)).
  destruct (Dial net _ _); reflexivity.
Qed.

(** ** The receive loop *)

Lemma published_app (a b : list Effect) :
  published (a ++ b) = (published a ++ published b)%list.
Proof. unfold published. apply flat_map_app. Qed.

Lemma receiveLoop_cons (t : Tick) (rest : list Tick) :
  receiveLoop (t :: rest) =
    match snd (receiveTurn t) with
    | Return => (fst (receiveTurn t), Returned)
    | Continue =>
      ((fst (receiveTurn t) ++ fst (receiveLoop rest))%list, snd (receiveLoop rest))
    end.
Proof.
  simpl. destruct (receiveTurn t) as [effects [|]]; simpl; [|reflexivity].
  destruct (receiveLoop rest); reflexivity.
Qed.

Lemma receiveTurn_published (t : Tick) (tag : string) (ev : SocketEvent) :
  In (tag, ev) (published (fst (receiveTurn t))) ->
  tag = SocketEventTypeMessage
  /\ Event_Type ev = SocketEventTypeMessage
  /\ exists raw msg,
       Event_Message ev = Some msg
       /\ Unmarshal raw zeroMessage = (msg, Event_Error ev).
Proof.
  destruct t as [|c [msgType raw|err]]; simpl.
  - intros [].
  - destruct (msgType =? TextMessage)%Z; simpl; [|intros []].
    destruct (Unmarshal raw zeroMessage) as [msg err] eqn:E.
    destruct err as [e|]; simpl; intros [H|[]]; inversion H; subst; simpl;
      (split; [reflexivity|split; [reflexivity|]]);
      exists raw, msg; rewrite E; split; reflexivity.
  - destruct (expectedClosure err); simpl; intros [].
Qed.

(** C8.  A text frame that [Unmarshal] rejects makes the loop publish one
    event and no more, under the tag "message" and with the error of the
    decoding in it; the loop then goes on with the next read. *)
Theorem decode_failure_published_once (c : Conn) (raw : string) (msg : Message)
    (err : error) (rest : list Tick) :
  Unmarshal raw zeroMessage = (msg, Some err) ->
  let frame := Read c (ReadOk TextMessage raw) in
  let ev := {| Event_Type := "message"; Event_Message := Some msg;
               Event_Error := Some err |} in
  published (fst (receiveTurn frame)) = [("message", ev)]
  /\ snd (receiveTurn frame) = Continue
  /\ receiveLoop (frame :: rest)
     = (([Logged (InfoRecv TextMessage raw); Logged (ErrorDecode raw err);
          Emitted "message" ev] ++ fst (receiveLoop rest))%list,
        snd (receiveLoop rest)).
Proof.
  intros H frame ev.
  assert (E : receiveTurn frame
              = ([Logged (InfoRecv TextMessage raw); Logged (ErrorDecode raw err);
                  Emitted "message" ev], Continue)).
  { unfold frame, receiveTurn. rewrite H. reflexivity. }
  rewrite receiveLoop_cons, E. simpl. auto.
Qed.

(** C9.  The read errors on which the loop returns are the close errors
    with the code of normal closure, going away or no status: on one of
    them the loop ends with nothing logged and nothing published; on any
    other read error it logs the error and goes on with the next read. *)
Theorem read_error_policy (c : Conn) (err : error) (rest : list Tick) :
  (expectedClosure err = true <->
   exists code text,
     err = CloseError code text
     /\ (code = CloseNormalClosure \/ code = CloseGoingAway
         \/ code = CloseNoStatusReceived))
  /\ (expectedClosure err = true ->
      receiveLoop (Read c (ReadErr err) :: rest) = ([], Returned))
  /\ (expectedClosure err = false ->
      receiveLoop (Read c (ReadErr err) :: rest)
      = (Logged (WarnReadError err) :: fst (receiveLoop rest),
         snd (receiveLoop rest))).
Proof.
  split; [|split].
  - split.
    + destruct err as [code text| | | |]; simpl; try discriminate.
      intros H. exists code, text. split; [reflexivity|].
      apply orb_prop in H. destruct H as [H|H].
      * apply orb_prop in H. destruct H as [H|H]; apply Z.eqb_eq in H; auto.
      * apply Z.eqb_eq in H; auto.
    + intros (code & text & -> & [->|[->| ->]]); reflexivity.
  - intros H. rewrite receiveLoop_cons. simpl. rewrite H. reflexivity.
  - intros H. rewrite receiveLoop_cons. simpl. rewrite H. reflexivity.
Qed.

(** C10.  Every event the loop publishes goes out under the tag "message"
    and carries a message that is not nil: the message [Unmarshal] left
    for some frame, with the error [Unmarshal] returned for it. *)
Theorem published_message_not_nil (ticks : list Tick) (tag : string)
    (ev : SocketEvent) :
  In (tag, ev) (published (fst (receiveLoop ticks))) ->
  tag = "message"
  /\ Event_Type ev = "message"
  /\ Event_Message ev <> None
  /\ exists raw msg,
       Event_Message ev = Some msg
       /\ Unmarshal raw zeroMessage = (msg, Event_Error ev).
Proof.
  assert (K : forall t, In (tag, ev) (published (fst (receiveTurn t))) ->
      tag = "message" /\ Event_Type ev = "message" /\ Event_Message ev <> None
      /\ exists raw msg, Event_Message ev = Some msg
           /\ Unmarshal raw zeroMessage = (msg, Event_Error ev)).
  { intros t H. destruct (receiveTurn_published t tag ev H)
      as (H1 & H2 & raw & msg & H3 & H4).
    repeat split; auto.
    - rewrite H3. discriminate.
    - exists raw, msg. auto. }
  induction ticks as [|t rest IH].
  - intros [].
  - rewrite receiveLoop_cons.
    destruct (snd (receiveTurn t)); simpl.
    + rewrite published_app. intros H. apply in_app_or in H.
      destruct H as [H|H]; [exact (K t H)|exact (IH H)].
    + exact (K t).
Qed.

(** ** The wire form of a message *)






Ltac split_members :=
  repeat match goal with
         | |- context [if String.eqb ?x "" then _ else _] =>
           destruct (String.eqb x "")
         | |- context [match ?x with Some _ => _ | None => _ end] => destruct x
         | |- context [if ?b then _ else _] => destruct b
         end.




(** A number in the metadata comes back as the float64 nearest to it,
    under the literal Marshal writes for that: the condition of
    [Restorable] on numbers is needed. *)
Lemma metadata_number_through_float64 (lit canonical : string) :
  float64Literal lit = Some canonical ->
  decodePayload
    (encodePayload
       {| Payload_Type := ""; ConnectionID := ""; Metadata := Some (JNumber lit);
          Label := ""; Serialization := ""; Reliable := false; Candidate := "";
          SDP := None; Browser := "" |})
    zeroPayload
  = Went {| Payload_Type := ""; ConnectionID := "";
            Metadata := Some (JNumber canonical);
            Label := ""; Serialization := ""; Reliable := false; Candidate := "";
            SDP := None; Browser := "" |} None.
Proof.
  intros H. unfold encodePayload, decodePayload, always, omitempty. simpl.
  unfold decodePayloadField.
  change (findField payloadFields "metadata") with (Some FMetadata).
  cbv iota. unfold decodeInterface. rewrite H. reflexivity.
Qed.

(** ** More on the lifecycle *)

Lemma mutex_released (s : Socket) :
  mutex s = false -> set_mutex false (set_mutex true s) = s.
Proof. destruct s; simpl; intros ->; reflexivity. Qed.

Lemma baseURLOnce_cached (s : Socket) :
  baseURLOnce (set_baseURL (baseURLOnce s) s) = baseURLOnce s.
Proof.
  unfold baseURLOnce. simpl.
  destruct (String.eqb (baseURL s) "") eqn:E.
  - destruct (String.eqb (buildBaseURL s) ""); reflexivity.
  - rewrite E. reflexivity.
Qed.

(** When the dial fails, [Start] returns the error of the dial as it is;
    the handle and the flag are as before, no loop is spawned, and the
    dial is the only operation on the network. *)
Theorem Start_dial_failure (w : World) (id token : string) (e : error) :
  disconnected (sock w) = true ->
  Dial net (wire w) (dialURL (sock w) id token) = inr e ->
  exists w',
    Start id token w = Done (Some e) w'
    /\ conn (sock w') = conn (sock w)
    /\ disconnected (sock w') = true
    /\ spawned w' = spawned w
    /\ wire w' = NetDial (dialURL (sock w) id token) :: wire w.
Proof.
  intros Hd He. rewrite (Start_disconnected id token w Hd). simpl. rewrite He.
  eexists. split; [reflexivity|]. simpl. auto.
Qed.

(** When the dial succeeds, [Start] records the handle the dial answered
    and spawns the keepalive loop and the receive loop, once each. *)
Theorem Start_dial_success (w : World) (id token : string) (c : Conn) :
  disconnected (sock w) = true ->
  Dial net (wire w) (dialURL (sock w) id token) = inl c ->
  exists w',
    Start id token w = Done None w'
    /\ conn (sock w') = Some c
    /\ spawned w' = ReceiveLoop :: KeepAliveLoop :: spawned w
    /\ wire w' = NetDial (dialURL (sock w) id token) :: wire w.
Proof.
  intros Hd Hc. rewrite (Start_disconnected id token w Hd). simpl. rewrite Hc.
  eexists. split; [reflexivity|]. simpl. auto.
Qed.

(** The base URL is built once: whatever a [Start] does, every later
    [Start] composes its URL from the same base as this one did. *)
Theorem Start_keeps_base_URL (w : World) (id token : string) (r : option error)
    (w' : World) :
  Start id token w = Done r w' ->
  forall id' token', dialURL (sock w') id' token' = dialURL (sock w) id' token'.
Proof.
  intros H id' token'. unfold dialURL. f_equal.
  destruct (disconnected (sock w)) eqn:Hd.
  - rewrite (Start_disconnected id token w Hd) in H.
    destruct (Dial net _ _); inversion H; subst; simpl.
    + unfold baseURLOnce at 1. simpl. apply (baseURLOnce_cached (sock w)).
    + apply baseURLOnce_cached.
  - rewrite (Start_not_disconnected id token w Hd) in H.
    inversion H; subst. reflexivity.
Qed.

(** The identifier and the token go into the URL as they are, without
    escaping: text moved from the end of the one to the start of the other
    across "&token=" gives the same URL. *)
Theorem dialURL_not_escaped (s : Socket) (id x token : string) :
  dialURL s (id ++ "&token=" ++ x) token = dialURL s id (x ++ "&token=" ++ token).
Proof.
  unfold dialURL. repeat rewrite append_assoc. reflexivity.
Qed.

(** On a socket with a handle and the lock free, [Send] writes the frame
    once, as a text message on that handle, and returns what the write
    answered; the socket is as before, the lock free again, also when the
    write failed. *)
Theorem Send_writes_text_frame (w : World) (c : Conn) (msg : string) :
  conn (sock w) = Some c ->
  mutex (sock w) = false ->
  Send msg w = Done (WriteMessage net (wire w) c TextMessage msg)
                    (onWire (NetWrite c TextMessage msg) w).
Proof.
  intros Hc Hm. destruct w as [s wi lo sp]. simpl in *.
  unfold Send, bind, self, Lock, Unlock, defer, update, onWire. simpl.
  rewrite Hc. simpl. rewrite Hm. simpl. rewrite Hc. simpl.
  rewrite (mutex_released s Hm). reflexivity.
Qed.

(** ** The keepalive loop *)

Lemma keepAliveTicks_nil (later : nat) (w : World) :
  conn (sock w) = None -> keepAliveTicks (S later) w = Done TickerStopped w.
Proof.
  intros H. simpl. unfold bind, self. rewrite H. reflexivity.
Qed.

Lemma keepAliveTicks_step (later : nat) (w : World) (c : Conn) :
  conn (sock w) = Some c ->
  mutex (sock w) = false ->
  keepAliveTicks (S later) w =
    match WriteMessage net (wire w) c PingMessage "" with
    | Some _ => Done TickerStopped (onWire (NetWrite c PingMessage "") w)
    | None => keepAliveTicks later (onWire (NetWrite c PingMessage "") w)
    end.
Proof.
  intros Hc Hm. destruct w as [[i o b d cn m] wi lo sp]. simpl in Hc, Hm. subst.
  cbn [keepAliveTicks]. unfold bind, self, Lock, Unlock, update, onWire. simpl.
  destruct (WriteMessage net wi c PingMessage ""); reflexivity.
Qed.

Lemma repeat_shift {A : Type} (x : A) (n : nat) (l : list A) :
  (repeat x n ++ x :: l = x :: repeat x n ++ l)%list.
Proof.
  induction n as [|n IH]; simpl; [reflexivity|]. now rewrite IH.
Qed.

Lemma keepAliveTicks_sock (ticks : nat) (w : World) (r : KeepAliveEnd) (w' : World) :
  mutex (sock w) = false ->
  keepAliveTicks ticks w = Done r w' ->
  sock w' = sock w
  /\ forall op, In op (wire w') ->
       In op (wire w) \/ exists c, op = NetWrite c PingMessage "".
Proof.
  revert w. induction ticks as [|later IH]; intros w Hm H.
  - inversion H; subst. auto.
  - destruct (conn (sock w)) as [c|] eqn:Hc.
    + rewrite (keepAliveTicks_step later w c Hc Hm) in H.
      assert (K : forall op, In op (NetWrite c PingMessage "" :: wire w) ->
                  In op (wire w) \/ exists c, op = NetWrite c PingMessage "").
      { intros op [<-|Hin]; [right; exists c; reflexivity|left; exact Hin]. }
      destruct (WriteMessage net (wire w) c PingMessage "").
      * inversion H; subst. split; [reflexivity|exact K].
      * destruct (IH (onWire (NetWrite c PingMessage "") w) Hm H) as (E1 & E2).
        split; [exact E1|].
        intros op Hin. destruct (E2 op Hin) as [Hw|Hp]; [|right; exact Hp].
        exact (K op Hw).
    + rewrite (keepAliveTicks_nil later w Hc) in H.
      inversion H; subst. auto.
Qed.

Lemma keepAlive_sock (ticks : nat) (w : World) (r : KeepAliveEnd) (w' : World) :
  disconnected (sock w) = true ->
  mutex (sock w) = false ->
  keepAlive ticks w = Done r w' ->
  sock w' = sock w
  /\ forall op, In op (wire w') ->
       In op (wire w) \/ exists c, op = NetWrite c PingMessage "".
Proof.
  intros Hd Hm H. unfold keepAlive in H.
  destruct (tickerPeriod (sock w) <=? 0)%Z; [discriminate H|].
  destruct (keepAliveTicks ticks w) as [e w1|w1|w1] eqn:E.
  - destruct (keepAliveTicks_sock ticks w e w1 Hm E) as [E1 E2].
    destruct e.
    + inversion H; subst. auto.
    + unfold bind in H. rewrite Close_disconnected in H by (rewrite E1; exact Hd).
      inversion H; subst. auto.
  - destruct (Close w1); discriminate H.
  - discriminate H.
Qed.

Lemma Runs_invariant (o : Options) (w : World) :
  Runs o w ->
  disconnected (sock w) = true /\ mutex (sock w) = false
  /\ Forall keepsOpen (wire w).
Proof.
  induction 1 as [|c r w w' _ (Hd & Hm & Hw) H|ticks r w w' _ (Hd & Hm & Hw) H].
  - simpl. auto.
  - destruct c as [id token|msg|]; simpl in H.
    + rewrite (Start_disconnected id token w Hd) in H.
      destruct (Dial net _ _); inversion H; subst; simpl;
        (split; [exact Hd|split; [exact Hm|constructor; [exact I|exact Hw]]]).
    + destruct (conn (sock w)) as [c|] eqn:Hc.
      * assert (E : Send msg w = Done (WriteMessage net (wire w) c TextMessage msg)
                      (onWire (NetWrite c TextMessage msg) w)).
        { destruct w as [[i o' b d cn m] wi lo sp]. simpl in Hc, Hm. subst.
          unfold Send, bind, self, Lock, Unlock, defer, update, onWire. simpl.
          reflexivity. }
        rewrite E in H. inversion H; subst. simpl.
        split; [exact Hd|split; [exact Hm|]].
        constructor; [left; reflexivity|exact Hw].
      * rewrite (Send_nil msg w Hc) in H. inversion H; subst. auto.
    + rewrite (Close_disconnected w Hd) in H. inversion H; subst. auto.
  - destruct (keepAlive_sock ticks w r w' Hd Hm H) as [E1 E2].
    rewrite E1. split; [exact Hd|split; [exact Hm|]].
    apply Forall_forall. intros op Hin.
    destruct (E2 op Hin) as [Hin'|[c ->]].
    + exact (proj1 (Forall_forall _ _) Hw op Hin').
    + right. reflexivity.
Qed.

Lemma keepAlive_ticking (ticks : nat) (w : World) :
  (0 < tickerPeriod (sock w))%Z ->
  keepAlive ticks w =
    match keepAliveTicks ticks w with
    | Done TickerWaiting w' => Done TickerWaiting w'
    | Done TickerStopped w' => (Close ;; ret TickerStopped) w'
    | Panicked w' =>
      match Close w' with
      | Done _ w'' => Panicked w''
      | Panicked w'' => Panicked w''
      | Blocked w'' => Blocked w''
      end
    | Blocked w' => Blocked w'
    end.
Proof.
  intros H. unfold keepAlive.
  destruct (tickerPeriod (sock w) <=? 0)%Z eqn:E; [|reflexivity].
  apply Z.leb_le in E. lia.
Qed.

(** With a ticker period that is positive, and as long as every ping is
    written, the keepalive loop writes one empty ping frame on the handle
    for each tick, under the lock, and leaves the socket as it was, the
    lock free; it goes on waiting for the ticker. *)
Theorem keepAlive_pings (c : Conn) (ticks : nat) (w : World) :
  (0 < tickerPeriod (sock w))%Z ->
  conn (sock w) = Some c ->
  mutex (sock w) = false ->
  (forall past, WriteMessage net past c PingMessage "" = None) ->
  keepAlive ticks w =
    Done TickerWaiting
      {| sock := sock w;
         wire := (repeat (NetWrite c PingMessage "") ticks ++ wire w)%list;
         logged := logged w; spawned := spawned w |}.
Proof.
  intros Hp Hc Hm Hok.
  assert (K : keepAliveTicks ticks w =
    Done TickerWaiting
      {| sock := sock w;
         wire := (repeat (NetWrite c PingMessage "") ticks ++ wire w)%list;
         logged := logged w; spawned := spawned w |}).
  { clear Hp. revert w Hc Hm. induction ticks as [|later IH]; intros w Hc Hm.
    - destruct w; reflexivity.
    - rewrite (keepAliveTicks_step later w c Hc Hm), Hok.
      rewrite (IH (onWire (NetWrite c PingMessage "") w) Hc Hm). simpl.
      rewrite repeat_shift. reflexivity. }
  rewrite (keepAlive_ticking ticks w Hp), K. reflexivity.
Qed.

(** With a ticker period that is positive, the keepalive loop returns at
    the first tick that finds the handle nil or whose ping fails, whatever
    ticks would follow: in the first case nothing is written, in the
    second the one ping, and then the deferred [Close] runs. *)
Theorem keepAlive_stops (later : nat) (w : World) :
  (0 < tickerPeriod (sock w))%Z ->
  (conn (sock w) = None ->
   keepAlive (S later) w = (Close ;; ret TickerStopped) w)
  /\ (forall c e,
        conn (sock w) = Some c ->
        mutex (sock w) = false ->
        WriteMessage net (wire w) c PingMessage "" = Some e ->
        keepAlive (S later) w
        = (Close ;; ret TickerStopped) (onWire (NetWrite c PingMessage "") w)).
Proof.
  intros Hp. split.
  - intros Hc. rewrite (keepAlive_ticking (S later) w Hp).
    rewrite (keepAliveTicks_nil later w Hc). reflexivity.
  - intros c e Hc Hm He. rewrite (keepAlive_ticking (S later) w Hp).
    rewrite (keepAliveTicks_step later w c Hc Hm), He. reflexivity.
Qed.

(** A ticker period that is not positive makes the goroutine panic in
    [time.NewTicker], before any ping and before [Close] is deferred: that
    is so for every interval from 0 down to -9223372036854 milliseconds,
    and an interval from 1 to 9223372036854 gives a positive period. *)
Theorem keepAlive_interval (ticks : nat) (w : World) :
  ((-9223372036854 <= PingInterval (opts (sock w)) <= 0)%Z ->
   keepAlive ticks w = Panicked w)
  /\ ((0 < PingInterval (opts (sock w)) <= 9223372036854)%Z ->
      (0 < tickerPeriod (sock w))%Z).
Proof.
  unfold keepAlive, tickerPeriod, wrap64.
  split; intros H.
  - assert (E : ((1000000 * PingInterval (opts (sock w)) + 2 ^ 63) mod 2 ^ 64
                 = 1000000 * PingInterval (opts (sock w)) + 2 ^ 63)%Z).
    { apply Z.mod_small. lia. }
    rewrite E.
    destruct (_ <=? 0)%Z eqn:L; [reflexivity|].
    apply Z.leb_gt in L. lia.
  - assert (E : ((1000000 * PingInterval (opts (sock w)) + 2 ^ 63) mod 2 ^ 64
                 = 1000000 * PingInterval (opts (sock w)) + 2 ^ 63)%Z).
    { apply Z.mod_small. lia. }
    rewrite E. lia.
Qed.

(** Whatever the client calls and however the keepalive loop runs, the
    flag stays set and nothing closes the connection: every operation on
    the network is a dial, a text frame or a ping, never a close frame and
    never the close of a handle. *)
Theorem connection_never_closed (o : Options) (w : World) :
  Runs o w ->
  disconnected (sock w) = true
  /\ forall op, In op (wire w) ->
       (forall c, op <> NetClose c)
       /\ (forall c data, op <> NetWrite c CloseMessage data).
Proof.
  intros H. destruct (Runs_invariant o w H) as (Hd & _ & Hw).
  split; [exact Hd|]. intros op Hin.
  pose proof (proj1 (Forall_forall _ _) Hw op Hin) as K.
  split.
  - intros c ->. exact K.
  - intros c data ->. destruct K as [K|K]; discriminate K.
Qed.

(** After a [Start] that succeeded, and with a ticker period that is
    positive, a ping that fails ends the keepalive loop and its deferred
    [Close] does nothing: the handle stays in the socket and is not
    closed. *)
Theorem keepAlive_failure_keeps_handle (o : Options) (later : nat) (w : World)
    (c : Conn) (e : error) :
  (0 < tickerPeriod (sock w))%Z ->
  Runs o w ->
  conn (sock w) = Some c ->
  WriteMessage net (wire w) c PingMessage "" = Some e ->
  keepAlive (S later) w
  = Done TickerStopped (onWire (NetWrite c PingMessage "") w).
Proof.
  intros Hp H Hc He. destruct (Runs_invariant o w H) as (Hd & Hm & _).
  rewrite (keepAlive_ticking (S later) w Hp).
  rewrite (keepAliveTicks_step later w c Hc Hm), He.
  unfold bind. rewrite Close_disconnected by exact Hd. reflexivity.
Qed.

(** ** More on the receive loop *)

(** The events the loop publishes are those of the text frames it reads
    before it returns, one for each and in the order of the frames; a frame
    that is no text frame, a read error and a nil handle publish
    nothing. *)
Theorem published_text_frames (ticks : list Tick) :
  published (fst (receiveLoop ticks)) = map eventOf (textFrames ticks).
Proof.
  induction ticks as [|t rest IH]; [reflexivity|].
  rewrite receiveLoop_cons.
  destruct t as [|c [msgType raw|err]]; simpl.
  - reflexivity.
  - destruct (msgType =? TextMessage)%Z; simpl.
    + unfold eventOf at 1.
      destruct (Unmarshal raw zeroMessage) as [msg [e|]]; simpl;
        rewrite IH; reflexivity.
    + exact IH.
  - destruct (expectedClosure err); simpl; [reflexivity|exact IH].
Qed.

(** The loop over turns followed by more turns: once it has returned the
    later turns count for nothing, and otherwise it goes on with them. *)
Theorem receiveLoop_app (before after : list Tick) :
  receiveLoop (before ++ after) =
    match snd (receiveLoop before) with
    | Returned => receiveLoop before
    | Reading =>
      ((fst (receiveLoop before) ++ fst (receiveLoop after))%list,
       snd (receiveLoop after))
    end.
Proof.
  induction before as [|t rest IH].
  - simpl. destruct (receiveLoop after); reflexivity.
  - change ((t :: rest) ++ after)%list with (t :: (rest ++ after))%list.
    rewrite !receiveLoop_cons.
    destruct (snd (receiveTurn t)); simpl; [|reflexivity].
    rewrite IH. destruct (receiveLoop rest) as [effects [|]]; simpl.
    + reflexivity.
    + rewrite app_assoc. reflexivity.
Qed.

(** A text frame that holds an object with the one member "type" is
    published as a message of that type with everything else at zero, and
    with no error. *)
Theorem type_only_frame_published (c : Conn) (raw t : string) :
  jsonParse raw = inl (JObject [("type", JString t)]) ->
  published (fst (receiveTurn (Read c (ReadOk TextMessage raw))))
  = [("message",
      {| Event_Type := "message";
         Event_Message := Some {| Message_Type := t; Message_Payload := zeroPayload;
                                  Src := ""; Dst := "" |};
         Event_Error := None |})].
Proof.
  intros H. unfold receiveTurn, Unmarshal. rewrite H. reflexivity.
Qed.

(** ** More on the wire form *)

Lemma lookupBy_None {F : Type} (eqb : string -> string -> bool)
    (fields : list (string * F)) (key : string) :
  (forall name f, In (name, f) fields -> eqb name key = false) ->
  lookupBy eqb fields key = None.
Proof.
  induction fields as [|[name f] rest IH]; intros H; simpl; [reflexivity|].
  rewrite (H name f) by (left; reflexivity).
  apply IH. intros n g Hin. apply (H n g). right. exact Hin.
Qed.

Lemma lookupBy_exact {F : Type} (fields : list (string * F)) (key : string) (f : F) :
  lookupBy String.eqb fields key = Some f -> In (key, f) fields.
Proof.
  induction fields as [|[name g] rest IH]; simpl; [discriminate|].
  destruct (String.eqb name key) eqn:E.
  - apply String.eqb_eq in E. intros H. inversion H; subst. left. reflexivity.
  - intros H. right. exact (IH H).
Qed.

Lemma findField_None {F : Type} (fields : list (string * F)) (key : string) :
  (forall name f, In (name, f) fields -> foldName name <> foldName key) ->
  findField fields key = None.
Proof.
  intros H. unfold findField.
  rewrite lookupBy_None, lookupBy_None; [reflexivity| |].
  - intros name f Hin. apply String.eqb_neq. exact (H name f Hin).
  - intros name f Hin. apply String.eqb_neq. intros ->. exact (H key f Hin eq_refl).
Qed.

Lemma decodeMembers_saved {A : Type} (step : string -> json -> A -> Decoded A)
    (ms : list (string * json)) (a : A) (e : error) :
  decodeMembers step ms a (Some e) =
    match decodeMembers step ms a None with
    | Went a' _ => Went a' (Some e)
    | Stopped a' e' => Stopped a' e'
    end.
Proof.
  revert a e. induction ms as [|[k v] rest IH]; intros a e; simpl; [reflexivity|].
  destruct (step k v a) as [a' [e'|]|a' e']; simpl; try reflexivity.
  - rewrite (IH a' e), (IH a' e').
    destruct (decodeMembers step rest a' None); reflexivity.
  - apply IH.
Qed.

(** Members whose key is none of "type", "payload", "src" and "dst", in
    whatever case, are passed over: an object of such members leaves the
    message as it was, without error. *)
Theorem unknown_members_skipped (ms : list (string * json)) (m : Message) :
  (forall k v, In (k, v) ms ->
     ~ In (foldName k) ["TYPE"; "PAYLOAD"; "SRC"; "DST"]) ->
  decodeMessage (JObject ms) m = Went m None.
Proof.
  intros H. simpl. induction ms as [|[k v] rest IH]; simpl; [reflexivity|].
  assert (E : findField messageFields k = None).
  { apply findField_None. intros name f Hin Hf.
    apply (H k v (or_introl eq_refl)). rewrite <- Hf.
    simpl in Hin.
    destruct Hin as [Hin|[Hin|[Hin|[Hin|[]]]]]; inversion Hin; subst; simpl; auto. }
  unfold decodeMessageField at 1. rewrite E. simpl.
  apply IH. intros k' v' Hin. apply (H k' v'). right. exact Hin.
Qed.

(** A key names a field in whatever case it is written: a member whose key
    folds to the same letters as "type", "payload", "src" or "dst" is
    decoded as the member of that name. *)
Theorem member_key_case_folded (name k : string) (v : json) (m : Message) :
  In name ["type"; "payload"; "src"; "dst"] ->
  foldName k = foldName name ->
  decodeMessageField k v m = decodeMessageField name v m.
Proof.
  intros Hin Hf.
  assert (E : findField messageFields k = findField messageFields name).
  { unfold findField at 1.
    destruct (lookupBy String.eqb messageFields k) as [f|] eqn:El.
    - apply lookupBy_exact in El. simpl in El, Hin.
      destruct El as [El|[El|[El|[El|[]]]]]; inversion El; subst;
        destruct Hin as [<-|[<-|[<-|[<-|[]]]]];
        try discriminate Hf; reflexivity.
    - unfold messageFields. cbn [lookupBy]. rewrite Hf. simpl in Hin.
      destruct Hin as [<-|[<-|[<-|[<-|[]]]]]; reflexivity. }
  unfold decodeMessageField. rewrite E. reflexivity.
Qed.

(** A value of the wrong JSON type for "type" does not stop the decoding:
    the members after it are decoded as if it were not there, and the
    error returned is the type error of that first mismatch. *)
Theorem type_mismatch_goes_on (v : json) (rest : list (string * json)) (m : Message) :
  (forall s, v <> JString s) ->
  v <> JNull ->
  decodedValue (decodeMessage (JObject (("type", v) :: rest)) m)
  = decodedValue (decodeMessage (JObject rest) m)
  /\ forall m' saved,
       decodeMessage (JObject rest) m = Went m' saved ->
       decodeMessage (JObject (("type", v) :: rest)) m
       = Went m' (Some (UnmarshalTypeError (jsonKind v) "string")).
Proof.
  intros Hs Hn.
  assert (E : decodeMessageField "type" v m
              = Went m (Some (UnmarshalTypeError (jsonKind v) "string"))).
  { unfold decodeMessageField. simpl.
    destruct v; simpl; try (destruct m; reflexivity).
    - contradiction Hn; reflexivity.
    - contradiction (Hs s); reflexivity. }
  simpl. rewrite E. simpl. rewrite decodeMembers_saved.
  destruct (decodeMembers decodeMessageField rest m None) as [a sv|a e'] eqn:Er.
  - split; [reflexivity|]. intros m' saved H. inversion H; subst. reflexivity.
  - split; [reflexivity|]. intros m' saved H. discriminate H.
Qed.

(** No key is written twice, in a message or in its payload. *)
Theorem encoded_keys_distinct (m : Message) :
  NoDup (keys (encodeMessage m))
  /\ NoDup (keys (encodePayload (Message_Payload m))).
Proof.
  destruct m as [mt [pt cid md lb ser rel cand sd br] src dst].
  unfold encodeMessage, encodePayload, always, omitempty, keys. simpl.
  split; split_members; simpl;
    repeat (constructor; [simpl; intuition discriminate|]); constructor.
Qed.

End Peer.

Arguments zeroMessage {SessionDescription}.
Arguments zeroPayload {SessionDescription}.

(** * The properties at work *)


(** A byte that is no UTF-8 goes out as U+FFFD, so the string does not come
    back: the first condition of [Restorable] is needed. *)
Example invalid_utf8_not_restored :
  decodedValue
    (decodeMessage PlainDescription plainZero plainUnmarshal wholeNumber
       (encodeMessage PlainDescription plainMarshal
          {| Message_Type := String "255" ""; Message_Payload := zeroPayload;
             Src := ""; Dst := "" |})
       zeroMessage)
  = {| Message_Type := replacementRune; Message_Payload := zeroPayload;
       Src := ""; Dst := "" |}.
Proof. reflexivity. Qed.

(** After a [Start] that succeeds, [Close] returns at its guard: nothing is
    written, the handle is neither closed nor cleared. *)
Example Close_after_Start_does_nothing :
  let w := finalWorld (Start netUp "abc" "tok123" (newWorld exampleOptions)) in
  Close netUp w = Done None w /\ conn (sock w) = Some 0.
Proof. split; reflexivity. Qed.

(** With the flag clear and the write of the close frame failing, [Close]
    returns the error of the close, not that of the write. *)
Example Close_hides_write_error :
  let w := {| sock := {| id := ""; opts := exampleOptions; baseURL := "";
                         disconnected := false; conn := Some 7; mutex := false |};
              wire := []; logged := []; spawned := [] |} in
  match Close netBroken w with
  | Done r w' =>
    r = Some (NetError "close failed")
    /\ logged w' = [WarnCloseError (NetError "close failed");
                    DebugCloseMessage (NetError "broken pipe")]
  | _ => False
  end.
Proof. split; reflexivity. Qed.

(** Metadata written as null comes back as the nil interface. *)
Example null_metadata_not_restored :
  Metadata PlainDescription
    (decodedValue
       (decodePayload PlainDescription plainZero plainUnmarshal wholeNumber
          (encodePayload PlainDescription plainMarshal
             {| Payload_Type := ""; ConnectionID := ""; Metadata := Some JNull;
                Label := ""; Serialization := ""; Reliable := false;
                Candidate := ""; SDP := None; Browser := "" |})
          zeroPayload))
  = None.
Proof. reflexivity. Qed.



Lemma Start_leaves_disconnected_set_witness :
  let w := newWorld exampleOptions in
  let w' := finalWorld (Start netUp "abc" "tok123" w) in
  (disconnected (sock w) = true /\ Start netUp "abc" "tok123" w = Done None w')
  /\ conn (sock w') <> None
  /\ disconnected (sock w') = true
  /\ ~ Connected (sock w')
  /\ forall id' token',
       wire (finalWorld (Start netUp id' token' w'))
       = NetDial (dialURL (sock w') id' token') :: wire w'.
Proof.
  intros w w'. split; [split; reflexivity|].
  exact (Start_leaves_disconnected_set netUp w "abc" "tok123" w' eq_refl eq_refl).
Defined.

Lemma Start_breaks_consistency_witness :
  let w := newWorld exampleOptions in
  let w' := finalWorld (Start netUp "abc" "tok123" w) in
  Reachable netUp exampleOptions w'
  /\ conn (sock w') <> None /\ disconnected (sock w') = true
  /\ consistent (sock w') = false.
Proof.
  intros w w'.
  exact (Start_breaks_consistency netUp exampleOptions w "abc" "tok123" w'
           (reach_new netUp exampleOptions) eq_refl).
Defined.

Lemma Close_idempotent_witness :
  let w := {| sock := {| id := ""; opts := exampleOptions;
                         baseURL := "wss://sig.example.com:443/peerjs?key=k1";
                         disconnected := false; conn := Some 7; mutex := false |};
              wire := []; logged := []; spawned := [] |} in
  finalWorld (bind (Close netBroken) (fun _ => Close netBroken) w)
  = finalWorld (Close netBroken w)
  /\ Close netBroken (finalWorld (Close netBroken w))
     = Done None (finalWorld (Close netBroken w)).
Proof.
  intros w. split.
  - exact (proj1 (Close_idempotent netBroken w)).
  - exact (proj1 (proj2 (Close_idempotent netBroken w)) _ _ eq_refl).
Defined.

Lemma Close_after_Start_keeps_connection_witness :
  let w := newWorld exampleOptions in
  let w' := finalWorld (Start netUp "abc" "tok123" w) in
  (Reachable netUp exampleOptions w /\ Start netUp "abc" "tok123" w = Done None w')
  /\ exists c, conn (sock w') = Some c /\ Close netUp w' = Done None w'.
Proof.
  intros w w'. split; [split; [apply reach_new|reflexivity]|].
  exact (Close_after_Start_keeps_connection netUp exampleOptions w "abc" "tok123" w'
           (reach_new netUp exampleOptions) eq_refl).
Defined.

Lemma Send_before_Start_witness :
  let w := finalWorld (Start netDown "abc" "tok123" (newWorld exampleOptions)) in
  NeverStarted netDown exampleOptions w /\ Send netDown "hello" w = Done None w.
Proof.
  intros w.
  assert (H : NeverStarted netDown exampleOptions w).
  { exact (never_start netDown exampleOptions "abc" "tok123"
             (NetError "connection refused") (newWorld exampleOptions) w
             (never_new netDown exampleOptions) eq_refl). }
  split; [exact H|].
  exact (Send_before_Start netDown exampleOptions w "hello" H).
Defined.

Lemma Start_dials_spec_URL_witness :
  wire (finalWorld (Start netUp "abc" "tok123" (newWorld exampleOptions)))
  = [NetDial "wss://sig.example.com:443/peerjs?key=k1&id=abc&token=tok123"].
Proof.
  exact (proj1 (Start_dials_spec_URL netUp) exampleOptions (newWorld exampleOptions)
           "abc" "tok123" (reach_new netUp exampleOptions) eq_refl).
Defined.

Lemma decode_failure_published_once_witness :
  let frame := Read 7 (ReadOk TextMessage "oops") in
  let ev := {| Event_Type := "message"; Event_Message := Some zeroMessage;
               Event_Error := Some (SyntaxError "invalid character") |} in
  Unmarshal PlainDescription plainZero plainUnmarshal parseLiteral wholeNumber "oops" zeroMessage
  = (zeroMessage, Some (SyntaxError "invalid character"))
  /\ published PlainDescription
       (fst (receiveTurn PlainDescription plainZero plainUnmarshal parseLiteral wholeNumber frame))
     = [("message", ev)]
  /\ snd (receiveTurn PlainDescription plainZero plainUnmarshal parseLiteral wholeNumber frame)
     = Continue.
Proof.
  intros frame ev. split; [reflexivity|].
  destruct (decode_failure_published_once PlainDescription plainZero plainUnmarshal
              parseLiteral wholeNumber 7 "oops" zeroMessage (SyntaxError "invalid character")
              [] eq_refl) as (H1 & H2 & _).
  split; [exact H1|exact H2].
Defined.

Lemma read_error_policy_witness :
  receiveLoop PlainDescription plainZero plainUnmarshal parseLiteral wholeNumber
    [Read 7 (ReadErr (CloseError 1001 "bye")); Read 7 (ReadOk TextMessage "null")]
  = ([], Returned)
  /\ receiveLoop PlainDescription plainZero plainUnmarshal parseLiteral wholeNumber
       [Read 7 (ReadErr (NetError "reset")); Read 7 (ReadErr (CloseError 1000 ""))]
     = ([Logged PlainDescription (WarnReadError (NetError "reset"))], Returned).
Proof.
  split.
  - exact (proj1 (proj2 (read_error_policy PlainDescription plainZero plainUnmarshal
                           parseLiteral wholeNumber 7 (CloseError 1001 "bye")
                           [Read 7 (ReadOk TextMessage "null")])) eq_refl).
  - exact (proj2 (proj2 (read_error_policy PlainDescription plainZero plainUnmarshal
                           parseLiteral wholeNumber 7 (NetError "reset")
                           [Read 7 (ReadErr (CloseError 1000 ""))])) eq_refl).
Defined.

Lemma published_message_not_nil_witness :
  let ev := {| Event_Type := "message"; Event_Message := Some zeroMessage;
               Event_Error := Some (UnmarshalTypeError "bool" "peer.Message") |} in
  Event_Message PlainDescription ev <> None.
Proof.
  intros ev.
  refine (proj1 (proj2 (proj2
    (published_message_not_nil PlainDescription plainZero plainUnmarshal parseLiteral wholeNumber
       [Read 7 (ReadOk BinaryMessage "ping"); Read 7 (ReadOk TextMessage "true")]
       "message" ev _)))).
  simpl. left. reflexivity.
Defined.

(** ** More properties at work *)

Lemma Start_dial_failure_witness :
  let w := newWorld exampleOptions in
  exists w',
    Start netDown "abc" "tok123" w = Done (Some (NetError "connection refused")) w'
    /\ conn (sock w') = conn (sock w)
    /\ disconnected (sock w') = true
    /\ spawned w' = spawned w
    /\ wire w' = NetDial (dialURL (sock w) "abc" "tok123") :: wire w.
Proof.
  intros w.
  exact (Start_dial_failure netDown w "abc" "tok123" (NetError "connection refused")
           eq_refl eq_refl).
Defined.

Lemma Start_dial_success_witness :
  let w := newWorld exampleOptions in
  exists w',
    Start netUp "abc" "tok123" w = Done None w'
    /\ conn (sock w') = Some 0
    /\ spawned w' = ReceiveLoop :: KeepAliveLoop :: spawned w
    /\ wire w' = NetDial (dialURL (sock w) "abc" "tok123") :: wire w.
Proof.
  intros w. exact (Start_dial_success netUp w "abc" "tok123" 0 eq_refl eq_refl).
Defined.

Lemma Start_keeps_base_URL_witness :
  let w := newWorld exampleOptions in
  let w' := finalWorld (Start netDown "abc" "tok123" w) in
  Start netDown "abc" "tok123" w = Done (Some (NetError "connection refused")) w'
  /\ dialURL (sock w') "abc" "tok456" = dialURL (sock w) "abc" "tok456".
Proof.
  intros w w'. split; [reflexivity|].
  exact (Start_keeps_base_URL netDown w "abc" "tok123" _ w' eq_refl "abc" "tok456").
Defined.

Lemma Send_writes_text_frame_witness :
  let w := finalWorld (Start netUp "abc" "tok123" (newWorld exampleOptions)) in
  Send netUp "hello" w = Done None (onWire (NetWrite 0 TextMessage "hello") w).
Proof.
  intros w. exact (Send_writes_text_frame netUp w 0 "hello" eq_refl eq_refl).
Defined.

Lemma keepAlive_pings_witness :
  let w := finalWorld (Start netUp "abc" "tok123" (newWorld exampleOptions)) in
  wire (finalWorld (keepAlive netUp 3 w))
  = [NetWrite 0 PingMessage ""; NetWrite 0 PingMessage ""; NetWrite 0 PingMessage "";
     NetDial "wss://sig.example.com:443/peerjs?key=k1&id=abc&token=tok123"].
Proof.
  intros w.
  exact (f_equal (fun o => wire (finalWorld o))
           (keepAlive_pings netUp 0 3 w eq_refl eq_refl eq_refl (fun _ => eq_refl))).
Defined.

Lemma keepAlive_stops_witness :
  let w := {| sock := {| id := ""; opts := exampleOptions; baseURL := "";
                         disconnected := false; conn := Some 7; mutex := false |};
              wire := []; logged := []; spawned := [] |} in
  keepAlive netBroken 5 w
  = bind (Close netBroken) (fun _ => ret TickerStopped)
      (onWire (NetWrite 7 PingMessage "") w)
  /\ keepAlive netBroken 5 (newWorld exampleOptions)
     = bind (Close netBroken) (fun _ => ret TickerStopped) (newWorld exampleOptions).
Proof.
  intros w. split.
  - exact (proj2 (keepAlive_stops netBroken 4 w eq_refl) 7 (NetError "broken pipe")
             eq_refl eq_refl eq_refl).
  - exact (proj1 (keepAlive_stops netBroken 4 (newWorld exampleOptions) eq_refl)
             eq_refl).
Defined.

Lemma connection_never_closed_witness :
  let w1 := finalWorld (Start netUp "abc" "tok123" (newWorld exampleOptions)) in
  let w2 := finalWorld (Send netUp "hello" w1) in
  let w3 := finalWorld (keepAlive netUp 2 w2) in
  let w4 := finalWorld (Close netUp w3) in
  Runs netUp exampleOptions w4
  /\ disconnected (sock w4) = true
  /\ forall op, In op (wire w4) ->
       (forall c, op <> NetClose c)
       /\ (forall c data, op <> NetWrite c CloseMessage data).
Proof.
  intros w1 w2 w3 w4.
  assert (H : Runs netUp exampleOptions w4).
  { apply (runs_call netUp exampleOptions CallClose None w3 w4); [|reflexivity].
    apply (runs_keepAlive netUp exampleOptions 2 TickerWaiting w2 w3); [|reflexivity].
    apply (runs_call netUp exampleOptions (CallSend "hello") None w1 w2);
      [|reflexivity].
    apply (runs_call netUp exampleOptions (CallStart "abc" "tok123") None
             (newWorld exampleOptions) w1); [|reflexivity].
    apply runs_new. }
  split; [exact H|]. exact (connection_never_closed netUp exampleOptions w4 H).
Defined.

Lemma keepAlive_failure_keeps_handle_witness :
  let w := finalWorld (Start netBroken "abc" "tok123" (newWorld exampleOptions)) in
  keepAlive netBroken 4 w = Done TickerStopped (onWire (NetWrite 7 PingMessage "") w)
  /\ conn (sock (finalWorld (keepAlive netBroken 4 w))) = Some 7.
Proof.
  intros w.
  assert (H : Runs netBroken exampleOptions w).
  { apply (runs_call netBroken exampleOptions (CallStart "abc" "tok123") None
             (newWorld exampleOptions) w); [apply runs_new|reflexivity]. }
  pose proof (keepAlive_failure_keeps_handle netBroken exampleOptions 3 w 7
                (NetError "broken pipe") eq_refl H eq_refl eq_refl) as E.
  split; [exact E|]. rewrite E. reflexivity.
Defined.

Lemma type_only_frame_published_witness :
  published PlainDescription
    (fst (receiveTurn PlainDescription plainZero plainUnmarshal parseOpen wholeNumber
            (Read 7 (ReadOk TextMessage openFrame))))
  = [("message",
      {| Event_Type := "message";
         Event_Message := Some {| Message_Type := "OPEN"; Message_Payload := zeroPayload;
                                  Src := ""; Dst := "" |};
         Event_Error := None |})].
Proof.
  exact (type_only_frame_published PlainDescription plainZero plainUnmarshal parseOpen wholeNumber
           7 openFrame "OPEN" eq_refl).
Defined.

Lemma unknown_members_skipped_witness :
  decodeMessage PlainDescription plainZero plainUnmarshal wholeNumber
    (JObject [("version", JNumber "2"); ("Types", JString "OPEN")]) zeroMessage
  = Went zeroMessage None.
Proof.
  apply unknown_members_skipped.
  intros k v [H|[H|[]]]; inversion H; subst; simpl;
    intuition discriminate.
Defined.

Lemma member_key_case_folded_witness :
  decodeMessageField PlainDescription plainZero plainUnmarshal wholeNumber "SRC"
    (JString "alice") zeroMessage
  = decodeMessageField PlainDescription plainZero plainUnmarshal wholeNumber "src"
      (JString "alice") zeroMessage.
Proof.
  apply member_key_case_folded; [simpl; auto|reflexivity].
Defined.

Lemma type_mismatch_goes_on_witness :
  decodeMessage PlainDescription plainZero plainUnmarshal wholeNumber
    (JObject [("type", JNumber "5"); ("src", JString "alice")]) zeroMessage
  = Went {| Message_Type := ""; Message_Payload := zeroPayload;
            Src := "alice"; Dst := "" |}
         (Some (UnmarshalTypeError "number" "string")).
Proof.
  refine (proj2 (type_mismatch_goes_on PlainDescription plainZero plainUnmarshal
                   wholeNumber (JNumber "5") [("src", JString "alice")] zeroMessage _ _)
            _ None eq_refl); discriminate.
Defined.

Lemma keepAlive_interval_witness :
  let w := {| sock := NewSocket {| Host := "sig.example.com"; Port := 443; Path := "";
                                   Key := "k1"; Secure := true; PingInterval := 0;
                                   Debug := 0 |};
              wire := []; logged := []; spawned := [] |} in
  keepAlive netUp 3 w = Panicked w
  /\ (0 < tickerPeriod (sock (newWorld exampleOptions)))%Z.
Proof.
  intros w. split.
  - apply (proj1 (keepAlive_interval netUp 3 w)). simpl. lia.
  - apply (proj2 (keepAlive_interval netUp 3 (newWorld exampleOptions))). simpl. lia.
Defined.
